(** * Vision Code: the playback controller, the analysis client and the
    graph renderer, embedded from the TypeScript sources.

    - [JS]: the JavaScript values the program computes with.
    - [GraphNode] ... [AnalysisResult], [EditorMode]: [types.ts].
    - [Json], [GeminiService]: [services/geminiService.ts].
    - [App]: the [App] component of [index.tsx] (state, event handlers and
      the playback effect).
    - [Visualizer]: the drawing effect of [components/Visualizer.tsx].
    The theorems follow the definitions. *)

From Stdlib Require Import ZArith NArith List String Ascii Bool Lia.
From stdpp Require Import gmap.
Import ListNotations.

Set Warnings "-register-all".

Local Open Scope Z_scope.

(** ** JavaScript values *)

Module JS.

(** A JavaScript string is a sequence of UTF-16 code units. *)
Definition jsstring := list N.

(** An ASCII literal of the source as a JavaScript string. *)
Definition lit (s : string) : jsstring :=
  map N_of_ascii (list_ascii_of_string s).

(** The numbers the component handles are array lengths, frame indices and
    results of [parseInt]: integers or [NaN]. An integer is taken exactly,
    as [Z]; the source's numbers are IEEE doubles, which hold every integer
    of magnitude up to [2 ^ 53]. *)
Inductive number : Type :=
| Int (z : Z)
| NaN.

(** [Number.isSafeInteger]. For a safe integer [z] the doubles [z + 1] and
    [z - 1] are the integers [z + 1] and [z - 1]; above [2 ^ 53] a double
    sum is rounded to the nearest double, so that [2 ^ 53 + 2 - 1] is
    [2 ^ 53]. *)
Definition safeInteger (z : Z) : Prop :=
  - (2 ^ 53 - 1) <= z <= 2 ^ 53 - 1.

#[global] Instance number_eq_dec : EqDecision number.
Proof. solve_decision. Defined.

(** [a + k] and [a - k] for an integer constant [k], without rounding:
    the source's sum and difference as long as the operand and the result
    are of magnitude at most [2 ^ 53], as they are for [k = 1] on a
    [safeInteger]. The length of an array is below [2 ^ 32], so a cursor
    within the frames is a safe integer; a statement about [prev + 1] or
    [prev - 1] at any other cursor carries [safeInteger] as a hypothesis. *)
Definition add (a : number) (k : Z) : number :=
  match a with Int z => Int (z + k) | NaN => NaN end.

Definition sub (a : number) (k : Z) : number :=
  match a with Int z => Int (z - k) | NaN => NaN end.

(** Relational operators: every comparison with [NaN] is false. *)
Definition lt (a b : number) : bool :=
  match a, b with Int x, Int y => x <? y | _, _ => false end.

Definition gt (a b : number) : bool := lt b a.

Definition ge (a b : number) : bool :=
  match a, b with Int x, Int y => y <=? x | _, _ => false end.

(** [x || 0] on an optional length: [undefined] and [0] are falsy. *)
Definition orZero (x : option Z) : Z :=
  match x with Some z => z | None => 0 end.

(** [WhiteSpace] and [LineTerminator] code units, the characters
    [String.prototype.trim] strips. *)
Definition isWhiteSpace (u : N) : bool :=
  ((u =? 0x9) || (u =? 0xB) || (u =? 0xC) || (u =? 0x20) || (u =? 0xA0)
   || (u =? 0x1680) || ((0x2000 <=? u) && (u <=? 0x200A))
   || (u =? 0x202F) || (u =? 0x205F) || (u =? 0x3000) || (u =? 0xFEFF)
   || (u =? 0xA) || (u =? 0xD) || (u =? 0x2028) || (u =? 0x2029))%N.

Fixpoint trimStart (s : jsstring) : jsstring :=
  match s with
  | u :: rest => if isWhiteSpace u then trimStart rest else s
  | [] => []
  end.

Definition trimEnd (s : jsstring) : jsstring := rev (trimStart (rev s)).

Definition trim (s : jsstring) : jsstring := trimEnd (trimStart s).

(** Truthiness of a string: only the empty string is falsy. *)
Definition truthy (s : jsstring) : bool :=
  match s with [] => false | _ => true end.

(** How a function ends: with a value, or by throwing an [Error] with a
    message. *)
Inductive Completion (A : Type) : Type :=
| Return (a : A)
| Throw (message : jsstring).

Arguments Return {A} a.
Arguments Throw {A} message.

Definition bind {A B : Type} (c : Completion A) (k : A -> Completion B)
  : Completion B :=
  match c with
  | Return a => k a
  | Throw message => Throw message
  end.

Notation "'let*' x ':=' c 'in' k" := (bind c (fun x => k))
  (at level 10, x name, c at level 100, k at level 200).

End JS.

Import JS.

(** ** types.ts *)

Inductive NodeType : Type := value | pointer | root | null.

Module GraphNode.
Record t : Type := mk {
  id : jsstring;
  label : jsstring;
  type : option NodeType;
  color : option jsstring
}.
End GraphNode.

Module GraphEdge.
Record t : Type := mk {
  source : jsstring;
  target : jsstring;
  label : option jsstring
}.
End GraphEdge.

Module VisualizationFrame.
Record t : Type := mk {
  step : number;
  lineCode : jsstring;
  explanation : jsstring;
  nodes : list GraphNode.t;
  edges : list GraphEdge.t
}.
End VisualizationFrame.

Module AnalysisResult.
Record t : Type := mk {
  frames : list VisualizationFrame.t;
  timeComplexity : jsstring;
  spaceComplexity : jsstring;
  conceptExplanation : jsstring;
  detectedStructure : jsstring
}.

(** [analysis.frames.length] *)
Definition length (a : t) : Z := Z.of_nat (List.length (frames a)).
End AnalysisResult.

Inductive EditorMode : Type := PYTHON | JAVASCRIPT | JAVA.

(** The string value of each enum member. *)
Definition EditorMode_value (m : EditorMode) : jsstring :=
  match m with
  | PYTHON => lit "python"
  | JAVASCRIPT => lit "javascript"
  | JAVA => lit "java"
  end.

(** ** JSON values and [JSON.parse] *)

Module Json.

Inductive JsValue : Type :=
| JNull
| JBool (b : bool)
(** the number [(-1)^negative * mantissa * 10^exponent] a literal denotes,
    before it is rounded to a double *)
| JNumber (negative : bool) (mantissa : N) (exponent : Z)
| JString (s : jsstring)
| JArray (elements : list JsValue)
(** the members in source order; reading a property takes the last one of
    that name, as a repeated name overwrites the earlier value *)
| JObject (members : list (jsstring * JsValue)).

Fixpoint lookupLast (key : jsstring) (members : list (jsstring * JsValue))
  : option JsValue :=
  match members with
  | [] => None
  | (k, v) :: rest =>
      match lookupLast key rest with
      | Some v' => Some v'
      | None => if decide (k = key) then Some v else None
      end
  end.

(** [v[key]] for an own property; [None] is [undefined]. *)
Definition getProp (key : jsstring) (v : JsValue) : option JsValue :=
  match v with
  | JObject members => lookupLast key members
  | _ => None
  end.

(** *** Tokens *)

Inductive Token : Type :=
| TLBrace | TRBrace | TLBracket | TRBracket | TColon | TComma
| TString (s : jsstring)
| TNumber (negative : bool) (mantissa : N) (exponent : Z)
| TTrue | TFalse | TNull.

(** Where the scanner is inside a number literal. *)
Inductive NumState : Type :=
| NMinus      (* after [-]: a digit must follow *)
| NZero       (* after a leading [0] *)
| NInt        (* in the integer digits *)
| NDot        (* after [.]: a digit must follow *)
| NFrac       (* in the fraction digits *)
| NE          (* after [e]: a sign or a digit must follow *)
| NESign      (* after the exponent sign: a digit must follow *)
| NExp.       (* in the exponent digits *)

(** A number being read: sign, digits so far as a natural number, count of
    fraction digits, exponent sign and exponent digits. *)
Record NumAcc : Type := mkNum {
  nNeg : bool; nMant : N; nFrac : Z; nENeg : bool; nExp : N
}.

Inductive LexState : Type :=
| LDefault
| LString (acc : list N)
| LEscape (acc : list N)
| LUnicode (acc : list N) (read : nat) (v : N)
| LNumber (st : NumState) (a : NumAcc)
| LWord (rest : list N) (t : Token).

Definition isJsonSpace (c : N) : bool :=
  ((c =? 0x20) || (c =? 0x9) || (c =? 0xA) || (c =? 0xD))%N.

Definition digitValue (c : N) : option N :=
  if ((0x30 <=? c) && (c <=? 0x39))%N then Some (c - 0x30)%N else None.

Definition hexValue (c : N) : option N :=
  if ((0x30 <=? c) && (c <=? 0x39))%N then Some (c - 0x30)%N
  else if ((0x41 <=? c) && (c <=? 0x46))%N then Some (c - 0x41 + 10)%N
  else if ((0x61 <=? c) && (c <=? 0x66))%N then Some (c - 0x61 + 10)%N
  else None.

(** The character after a backslash, [u] apart. *)
Definition simpleEscape (c : N) : option N :=
  if (c =? 0x22)%N then Some 0x22%N        (* quotation mark *)
  else if (c =? 0x5C)%N then Some 0x5C%N   (* backslash *)
  else if (c =? 0x2F)%N then Some 0x2F%N   (* slash *)
  else if (c =? 0x62)%N then Some 0x8%N    (* b *)
  else if (c =? 0x66)%N then Some 0xC%N    (* f *)
  else if (c =? 0x6E)%N then Some 0xA%N    (* n *)
  else if (c =? 0x72)%N then Some 0xD%N    (* r *)
  else if (c =? 0x74)%N then Some 0x9%N    (* t *)
  else None.

Definition numToken (a : NumAcc) : Token :=
  TNumber (nNeg a) (nMant a)
          ((if nENeg a then - Z.of_N (nExp a) else Z.of_N (nExp a)) - nFrac a).

(** May a number literal end in this state? *)
Definition numComplete (st : NumState) : bool :=
  match st with
  | NZero | NInt | NFrac | NExp => true
  | NMinus | NDot | NE | NESign => false
  end.

(** A character outside any token. *)
Definition lexDefault (c : N) : option (LexState * list Token) :=
  if isJsonSpace c then Some (LDefault, [])
  else if (c =? 0x7B)%N then Some (LDefault, [TLBrace])
  else if (c =? 0x7D)%N then Some (LDefault, [TRBrace])
  else if (c =? 0x5B)%N then Some (LDefault, [TLBracket])
  else if (c =? 0x5D)%N then Some (LDefault, [TRBracket])
  else if (c =? 0x3A)%N then Some (LDefault, [TColon])
  else if (c =? 0x2C)%N then Some (LDefault, [TComma])
  else if (c =? 0x22)%N then Some (LString [], [])
  else if (c =? 0x2D)%N then Some (LNumber NMinus (mkNum true 0 0 false 0), [])
  else if (c =? 0x30)%N then Some (LNumber NZero (mkNum false 0 0 false 0), [])
  else if (c =? 0x74)%N then Some (LWord (lit "rue") TTrue, [])
  else if (c =? 0x66)%N then Some (LWord (lit "alse") TFalse, [])
  else if (c =? 0x6E)%N then Some (LWord (lit "ull") TNull, [])
  else match digitValue c with
       | Some d => Some (LNumber NInt (mkNum false d 0 false 0), [])
       | None => None
       end.

(** A character inside a number; [None] when it does not continue it. *)
Definition lexNumber (st : NumState) (a : NumAcc) (c : N) : option LexState :=
  let isE := ((c =? 0x65) || (c =? 0x45))%N in
  let isDot := (c =? 0x2E)%N in
  let isSign := ((c =? 0x2B) || (c =? 0x2D))%N in
  let pushInt d := mkNum (nNeg a) (nMant a * 10 + d) (nFrac a) (nENeg a) (nExp a) in
  let pushFrac d := mkNum (nNeg a) (nMant a * 10 + d) (nFrac a + 1) (nENeg a) (nExp a) in
  let pushExp d := mkNum (nNeg a) (nMant a) (nFrac a) (nENeg a) (nExp a * 10 + d)%N in
  match st, digitValue c with
  | NMinus, Some d => Some (LNumber (if (d =? 0)%N then NZero else NInt) (pushInt d))
  | NInt, Some d => Some (LNumber NInt (pushInt d))
  | (NDot | NFrac), Some d => Some (LNumber NFrac (pushFrac d))
  | (NE | NESign | NExp), Some d => Some (LNumber NExp (pushExp d))
  | NZero, Some _ => None
  | (NZero | NInt), None =>
      if isDot then Some (LNumber NDot a)
      else if isE then Some (LNumber NE a) else None
  | NFrac, None => if isE then Some (LNumber NE a) else None
  | NE, None =>
      if isSign
      then Some (LNumber NESign
                   (mkNum (nNeg a) (nMant a) (nFrac a) (c =? 0x2D)%N (nExp a)))
      else None
  | (NMinus | NDot | NESign | NExp), None => None
  end.

Definition lexStep (st : LexState) (c : N) : option (LexState * list Token) :=
  match st with
  | LDefault => lexDefault c
  | LString acc =>
      if (c =? 0x22)%N then Some (LDefault, [TString (rev acc)])
      else if (c =? 0x5C)%N then Some (LEscape acc, [])
      else if (c <? 0x20)%N then None
      else Some (LString (c :: acc), [])
  | LEscape acc =>
      if (c =? 0x75)%N then Some (LUnicode acc 0 0%N, [])
      else match simpleEscape c with
           | Some u => Some (LString (u :: acc), [])
           | None => None
           end
  | LUnicode acc read v =>
      match hexValue c with
      | Some h =>
          let v' := (v * 16 + h)%N in
          if (read =? 3)%nat then Some (LString (v' :: acc), [])
          else Some (LUnicode acc (S read) v', [])
      | None => None
      end
  | LNumber ns a =>
      match lexNumber ns a c with
      | Some st' => Some (st', [])
      | None =>
          if numComplete ns
          then match lexDefault c with
               | Some (st', ts) => Some (st', numToken a :: ts)
               | None => None
               end
          else None
      end
  | LWord rest t =>
      match rest with
      | [] => None
      | x :: rest' =>
          if (c =? x)%N
          then match rest' with
               | [] => Some (LDefault, [t])
               | _ => Some (LWord rest' t, [])
               end
          else None
      end
  end.

(** The end of the text. *)
Definition lexEnd (st : LexState) : option (list Token) :=
  match st with
  | LDefault => Some []
  | LNumber ns a => if numComplete ns then Some [numToken a] else None
  | _ => None
  end.

Fixpoint lexFrom (st : LexState) (text : list N) : option (list Token) :=
  match text with
  | [] => lexEnd st
  | c :: rest =>
      match lexStep st c with
      | Some (st', ts) =>
          match lexFrom st' rest with
          | Some more => Some (ts ++ more)
          | None => None
          end
      | None => None
      end
  end.

Definition lex (text : jsstring) : option (list Token) := lexFrom LDefault text.

(** *** The grammar, over the tokens *)

(** An array or object under construction. *)
Inductive Open : Type :=
| OArray (elements : list JsValue)
| OObject (members : list (jsstring * JsValue)) (key : jsstring).

(** What may come next. *)
Inductive Expect : Type :=
| EValue            (* a value *)
| EValueOrClose     (* just after [[]: a value or []] *)
| EKeyOrClose       (* just after [{]: a member name or [}] *)
| EKey              (* after a comma in an object: a member name *)
| EColon (members : list (jsstring * JsValue)) (key : jsstring)
| ECommaOrClose     (* after a value inside an array or object *)
| EDone (v : JsValue).

Definition Parser : Type := list Open * Expect.

(** A value is complete: it is the whole text, or goes into the innermost
    open array or object. *)
Definition complete (v : JsValue) (stack : list Open) : Parser :=
  match stack with
  | [] => ([], EDone v)
  | OArray es :: below => (OArray (v :: es) :: below, ECommaOrClose)
  | OObject ms k :: below => (OObject ((k, v) :: ms) k :: below, ECommaOrClose)
  end.

(** A token where a value may start. *)
Definition startValue (t : Token) (stack : list Open) : option Parser :=
  match t with
  | TLBrace => Some (stack, EKeyOrClose)
  | TLBracket => Some (OArray [] :: stack, EValueOrClose)
  | TString s => Some (complete (JString s) stack)
  | TNumber neg m e => Some (complete (JNumber neg m e) stack)
  | TTrue => Some (complete (JBool true) stack)
  | TFalse => Some (complete (JBool false) stack)
  | TNull => Some (complete JNull stack)
  | TRBrace | TRBracket | TColon | TComma => None
  end.

(** The members read so far of the object a name is being read for: those
    of the innermost open object when a comma came before, none just after
    the opening brace. *)
Definition parseStep (p : Parser) (t : Token) : option Parser :=
  let (stack, expect) := p in
  match expect, t with
  | EValue, _ => startValue t stack
  | EValueOrClose, TRBracket =>
      match stack with
      | OArray es :: below => Some (complete (JArray (rev es)) below)
      | _ => None
      end
  | EValueOrClose, _ => startValue t stack
  | EKeyOrClose, TRBrace => Some (complete (JObject []) stack)
  | EKeyOrClose, TString k => Some (stack, EColon [] k)
  | EKey, TString k =>
      match stack with
      | OObject ms _ :: below => Some (below, EColon ms k)
      | _ => None
      end
  | EColon ms k, TColon => Some (OObject ms k :: stack, EValue)
  | ECommaOrClose, TComma =>
      match stack with
      | OArray _ :: _ => Some (stack, EValue)
      | OObject _ _ :: _ => Some (stack, EKey)
      | [] => None
      end
  | ECommaOrClose, TRBracket =>
      match stack with
      | OArray es :: below => Some (complete (JArray (rev es)) below)
      | _ => None
      end
  | ECommaOrClose, TRBrace =>
      match stack with
      | OObject ms _ :: below => Some (complete (JObject (rev ms)) below)
      | _ => None
      end
  | _, _ => None
  end.

Fixpoint parseFrom (p : Parser) (ts : list Token) : option JsValue :=
  match ts with
  | [] => match p with ([], EDone v) => Some v | _ => None end
  | t :: rest =>
      match parseStep p t with
      | Some p' => parseFrom p' rest
      | None => None
      end
  end.

(** [JSON.parse(text)]: the value, or [None] for the [SyntaxError]. *)
Definition JSON_parse (text : jsstring) : option JsValue :=
  match lex text with
  | Some ts => parseFrom ([], EValue) ts
  | None => None
  end.

End Json.

(** ** services/geminiService.ts *)

Module GeminiService.

Import Json.

(** The response schema sent with the request. *)
Inductive Schema : Type :=
| OBJECT (properties : list (jsstring * Schema)) (required : list jsstring)
| ARRAY (description : option jsstring) (items : Schema)
| STRING (description : option jsstring)
| INTEGER (description : option jsstring).

Definition ANALYSIS_SCHEMA : Schema :=
  OBJECT
    [ (lit "frames",
       ARRAY (Some (lit "A chronological list of states (frames) representing the code execution step-by-step."))
         (OBJECT
            [ (lit "step", INTEGER (Some (lit "Sequence number of the step")));
              (lit "lineCode", STRING (Some (lit "The specific line of code executed in this step")));
              (lit "explanation", STRING (Some (lit "What happened in this step (e.g. 'Node 1 created', 'Pointer updated')")));
              (lit "nodes",
               ARRAY None
                 (OBJECT
                    [ (lit "id", STRING None);
                      (lit "label", STRING None);
                      (lit "type", STRING None);
                      (lit "color", STRING None) ]
                    [ lit "id"; lit "label" ]));
              (lit "edges",
               ARRAY None
                 (OBJECT
                    [ (lit "source", STRING None);
                      (lit "target", STRING None);
                      (lit "label", STRING None) ]
                    [ lit "source"; lit "target" ])) ]
            [ lit "step"; lit "lineCode"; lit "explanation"; lit "nodes"; lit "edges" ]));
      (lit "timeComplexity", STRING (Some (lit "Big-O time complexity (e.g., O(n))")));
      (lit "spaceComplexity", STRING (Some (lit "Big-O space complexity")));
      (lit "conceptExplanation", STRING (Some (lit "Brief explanation of the logic or data structure state.")));
      (lit "detectedStructure", STRING (Some (lit "Name of the data structure (e.g., Linked List, BST)"))) ]
    [ lit "frames"; lit "timeComplexity"; lit "spaceComplexity";
      lit "conceptExplanation"; lit "detectedStructure" ].

(** Is [mantissa * 10^exponent] an integer? *)
Definition isInteger (mantissa : N) (exponent : Z) : bool :=
  if 0 <=? exponent then true
  else Z.of_N mantissa mod 10 ^ (- exponent) =? 0.

(** Does a value have the shape a schema describes: the type named, every
    required property present, every described property that is present of
    its own shape. *)
Fixpoint conforms (sch : Schema) (v : JsValue) {struct sch} : bool :=
  match sch, v with
  | OBJECT properties required, JObject members =>
      forallb (fun k => bool_decide (is_Some (lookupLast k members))) required
      && (fix each (ps : list (jsstring * Schema)) : bool :=
            match ps with
            | [] => true
            | (k, s) :: rest =>
                match lookupLast k members with
                | Some x => conforms s x
                | None => true
                end && each rest
            end) properties
  | ARRAY _ items, JArray elements => forallb (conforms items) elements
  | STRING _, JString _ => true
  | INTEGER _, JNumber _ mantissa exponent => isInteger mantissa exponent
  | _, _ => false
  end.

Definition prompt (code mode : jsstring) : jsstring :=
  lit "
    You are the " ++ [34%N] ++ lit "Omni-Mapper" ++ [34%N] ++ lit " engine. Your goal is to visualize the *step-by-step execution* of the following code.
    
    Language: "
  ++ mode ++
  lit "
    Code:
    "
  ++ code ++
  lit "

    Instructions:
    1. Analyze the code execution line by line.
    2. Generate a series of 'frames'. Each frame represents the state of the data structure after a significant operation (variable assignment, node creation, pointer update).
    3. **Critical**: Ensure Node IDs are consistent across frames. If a node is created with ID 'n1' in frame 1, it must be 'n1' in all subsequent frames.
    4. Start with an initial frame (empty or first variable). End with the final state.
    5. For Linked Lists/Trees: Visualize nodes and pointers.
    6. For Recursion: Visualize the stack or tree growth.
    
    Return the data strictly in JSON format matching the schema.
  ".

Record GenerateContentConfig : Type := mkConfig {
  responseMimeType : jsstring;
  responseSchema : Schema;
  systemInstruction : jsstring
}.

Record GenerateContentParameters : Type := mkParameters {
  model : jsstring;
  contents : jsstring;
  config : GenerateContentConfig
}.

(** What awaiting [ai.models.generateContent] gives: a rejection, or a
    response whose [text] is a string or [undefined]. *)
Inductive GenerateContentOutcome : Type :=
| Failure
| Response (text : option jsstring).

(** [response.text || "{}"] *)
Definition textOrEmptyObject (text : option jsstring) : jsstring :=
  match text with
  | Some t => if truthy t then t else lit "{}"
  | None => lit "{}"
  end.

(** The parameters of the one request [analyzeCode] makes. *)
Definition request (code mode : jsstring) : GenerateContentParameters :=
  mkParameters (lit "gemini-2.5-flash") (prompt code mode)
    (mkConfig (lit "application/json") ANALYSIS_SCHEMA
       (lit "You are an expert Computer Science educator and visualization engine.")).

(** [analyzeCode], with the hosted model as a parameter. The value returned
    is the parsed response as it is: [result as AnalysisResult] is a type
    assertion and checks nothing. Both a rejected request and a
    [SyntaxError] of [JSON.parse] reach the one [catch], which logs to the
    console (left out) and throws the new error. *)
Definition analyzeCode
    (generateContent : GenerateContentParameters -> GenerateContentOutcome)
    (code mode : jsstring) : Completion JsValue :=
  match generateContent (request code mode) with
  | Response text =>
      match JSON_parse (textOrEmptyObject text) with
      | Some result => Return result
      | None => Throw (lit "Failed to analyze code execution.")
      end
  | Failure => Throw (lit "Failed to analyze code execution.")
  end.

End GeminiService.

(** ** index.tsx: the App component *)

Module App.

Definition TEMPLATE_PYTHON : jsstring :=
  lit "class Node:
    def __init__(self, val):
        self.val = val
        self.next = None

# Step 1: Create Head
head = Node(1)

# Step 2: Create Second
second = Node(2)
head.next = second

# Step 3: Create Cycle
third = Node(3)
second.next = third
third.next = head 
".

Definition TEMPLATE_JAVASCRIPT : jsstring :=
  lit "class Node {
  constructor(val) {
    this.val = val;
    this.next = null;
  }
}

// Step 1: Create Head
const head = new Node(1);

// Step 2: Create Second
const second = new Node(2);
head.next = second;

// Step 3: Create Cycle
const third = new Node(3);
second.next = third;
third.next = head;
".

Definition TEMPLATE_JAVA : jsstring :=
  lit "public class Main {
    static class Node {
        int val;
        Node next;
        
        Node(int val) {
            this.val = val;
            this.next = null;
        }
    }

    public static void main(String[] args) {
        // Step 1: Create Head
        Node head = new Node(1);

        // Step 2: Create Second
        Node second = new Node(2);
        head.next = second;

        // Step 3: Create Cycle
        Node third = new Node(3);
        second.next = third;
        third.next = head;
    }
}
".


Definition CODE_TEMPLATES (m : EditorMode) : jsstring :=
  match m with
  | PYTHON => TEMPLATE_PYTHON
  | JAVASCRIPT => TEMPLATE_JAVASCRIPT
  | JAVA => TEMPLATE_JAVA
  end.

(** The [useState] cells of the component. [analysisId] is not a cell of its
    own: it stands for the identity of the object held in [analysis] (the
    number of result objects stored so far), because the dependency list of
    the playback effect compares [analysis] by reference. *)
Record State : Type := mkState {
  mode : EditorMode;
  code : jsstring;
  analysis : option AnalysisResult.t;
  analysisId : nat;
  loading : bool;
  error : option jsstring;
  currentFrameIndex : number;
  isPlaying : bool;
  isDarkMode : bool
}.

Definition setMode (v : EditorMode) (s : State) : State :=
  mkState v (code s) (analysis s) (analysisId s) (loading s) (error s)
          (currentFrameIndex s) (isPlaying s) (isDarkMode s).

Definition setCode (v : jsstring) (s : State) : State :=
  mkState (mode s) v (analysis s) (analysisId s) (loading s) (error s)
          (currentFrameIndex s) (isPlaying s) (isDarkMode s).

(** [setAnalysis(null)] and [setAnalysis(result)]; a result is a new object. *)
Definition setAnalysis (v : option AnalysisResult.t) (s : State) : State :=
  mkState (mode s) (code s) v
          (match v with Some _ => S (analysisId s) | None => analysisId s end)
          (loading s) (error s)
          (currentFrameIndex s) (isPlaying s) (isDarkMode s).

Definition setLoading (v : bool) (s : State) : State :=
  mkState (mode s) (code s) (analysis s) (analysisId s) v (error s)
          (currentFrameIndex s) (isPlaying s) (isDarkMode s).

Definition setError (v : option jsstring) (s : State) : State :=
  mkState (mode s) (code s) (analysis s) (analysisId s) (loading s) v
          (currentFrameIndex s) (isPlaying s) (isDarkMode s).

Definition setCurrentFrameIndex (v : number) (s : State) : State :=
  mkState (mode s) (code s) (analysis s) (analysisId s) (loading s) (error s)
          v (isPlaying s) (isDarkMode s).

Definition setIsPlaying (v : bool) (s : State) : State :=
  mkState (mode s) (code s) (analysis s) (analysisId s) (loading s) (error s)
          (currentFrameIndex s) v (isDarkMode s).

Definition setIsDarkMode (v : bool) (s : State) : State :=
  mkState (mode s) (code s) (analysis s) (analysisId s) (loading s) (error s)
          (currentFrameIndex s) (isPlaying s) v.

(** The state of the first render. *)
Definition initialState : State :=
  mkState PYTHON (CODE_TEMPLATES PYTHON) None 0%nat false None (Int 0) false true.

(** [analysis?.frames.length] *)
Definition framesLength (s : State) : option Z :=
  AnalysisResult.length <$> analysis s.

(** *** Event handlers

    A handler reads the state of the render it closes over and queues
    updates; the function gives the state once the batch is applied. *)

Definition handleModeChange (newMode : EditorMode) (s : State) : State :=
  setError None
    (setIsPlaying false
      (setCurrentFrameIndex (Int 0)
        (setAnalysis None
          (setCode (CODE_TEMPLATES newMode)
            (setMode newMode s))))).

(** [handleRun] up to its [await]: the new state, and the arguments of the
    call [analyzeCode(code, mode)] when the call is made. *)
Definition handleRun_begin (s : State) : State * option (jsstring * EditorMode) :=
  if negb (truthy (trim (code s))) then (s, None)
  else
    (setIsPlaying false
       (setCurrentFrameIndex (Int 0)
         (setAnalysis None
           (setError None
             (setLoading true s)))),
     Some (code s, mode s)).

(** [handleRun] after the [await], when the promise is fulfilled: the rest
    of the [try] block, then [finally]. *)
Definition handleRun_fulfilled (result : AnalysisResult.t) (s : State) : State :=
  let s1 := setAnalysis (Some result) s in
  let s2 := if 0 <? AnalysisResult.length result
            then setCurrentFrameIndex (Int 0) s1 else s1 in
  setLoading false s2.

(** [handleRun] after the [await], when the promise is rejected: [catch],
    then [finally]. *)
Definition handleRun_rejected (s : State) : State :=
  setLoading false
    (setError (Some (lit "Analysis failed. Please try again or check your API key.")) s).

(** What awaiting [analyzeCode] gives, as [handleRun] types it: a value of
    the declared type [AnalysisResult], or a rejection. The declared type is
    a cast of the parsed response, which the service does not check: a
    returned value that is no [AnalysisResult] (an object without [frames],
    as for an empty response) is not among these outcomes, and the state has
    no cell to hold it. With such a value [result.frames.length] throws
    inside the [try], after [setAnalysis(result)]: the [catch] sets the
    error next to the stored value. *)
Inductive Settled : Type :=
| Fulfilled (result : AnalysisResult.t)
| Rejected.

Definition handleRun_resume (o : Settled) (s : State) : State :=
  match o with
  | Fulfilled result => handleRun_fulfilled result s
  | Rejected => handleRun_rejected s
  end.

(** A whole run with no other event before the promise settles. *)
Definition handleRun (o : Settled) (s : State) : State :=
  match handleRun_begin s with
  | (s1, Some _) => handleRun_resume o s1
  | (s1, None) => s1
  end.

Definition handleNext (s : State) : State :=
  match analysis s with
  | Some a =>
      if lt (currentFrameIndex s) (Int (AnalysisResult.length a - 1))
      then setIsPlaying false
             (setCurrentFrameIndex (add (currentFrameIndex s) 1) s)
      else s
  | None => s
  end.

Definition handlePrev (s : State) : State :=
  if gt (currentFrameIndex s) (Int 0)
  then setIsPlaying false
         (setCurrentFrameIndex (sub (currentFrameIndex s) 1) s)
  else s.

(** The argument is the value of [parseInt(e.target.value)]. *)
Definition handleSliderChange (v : number) (s : State) : State :=
  setIsPlaying false (setCurrentFrameIndex v s).

Definition togglePlay (s : State) : State :=
  let s1 := if ge (currentFrameIndex s) (Int (orZero (framesLength s) - 1))
            then setCurrentFrameIndex (Int 0) s else s in
  setIsPlaying (negb (isPlaying s)) s1.

(** [frames[i]]: [undefined] off the array and at [NaN]. *)
Definition index {A : Type} (l : list A) (i : number) : option A :=
  match i with
  | Int z => if z <? 0 then None else nth_error l (Z.to_nat z)
  | NaN => None
  end.

(** Derived state: the frame handed to the visualizer. *)
Definition currentFrame (s : State) : option VisualizationFrame.t :=
  match analysis s with
  | Some a =>
      if 0 <? AnalysisResult.length a
      then index (AnalysisResult.frames a) (currentFrameIndex s)
      else None
  | None => None
  end.

(** The playback controls (play button, previous, slider, next) are in the
    tree only under [analysis && analysis.frames.length > 0]. *)
Definition controlsRendered (s : State) : bool :=
  match analysis s with
  | Some a => 0 <? AnalysisResult.length a
  | None => false
  end.

(** The slider is [<input type="range" min="0" max={length - 1}>]: the
    values it can put in a change event. *)
Definition sliderDelivers (s : State) (v : number) : bool :=
  controlsRendered s &&
  match v with
  | Int z => (0 <=? z) && (z <=? orZero (framesLength s) - 1)
  | NaN => false
  end.

(** *** The playback effect and the timers *)

Definition TimerId := nat.

(** The dependency list [[isPlaying, currentFrameIndex, analysis]]. *)
Definition Deps : Type := bool * number * option nat.

Definition depsOf (s : State) : Deps :=
  (isPlaying s, currentFrameIndex s,
   match analysis s with Some _ => Some (analysisId s) | None => None end).

(** The mounted component: its state, the ref, the pending timeouts of the
    window (identifier and delay in milliseconds; every one of them carries
    the callback [() => setCurrentFrameIndex(prev => prev + 1)]), the next
    identifier [setTimeout] hands out, and the dependencies the effect last
    ran with ([None] before the first commit). *)
Record Mounted : Type := mkMounted {
  state : State;
  playbackRef : option TimerId;
  timeouts : gmap TimerId Z;
  nextTimerId : TimerId;
  effectDeps : option Deps
}.

Definition withState (s : State) (w : Mounted) : Mounted :=
  mkMounted s (playbackRef w) (timeouts w) (nextTimerId w) (effectDeps w).

(** [playbackRef.current = setTimeout(callback, delay)] *)
Definition setTimeout (delay : Z) (w : Mounted) : Mounted :=
  mkMounted (state w) (Some (nextTimerId w))
            (<[nextTimerId w := delay]> (timeouts w))
            (S (nextTimerId w)) (effectDeps w).

Definition clearTimeout (id : TimerId) (w : Mounted) : Mounted :=
  mkMounted (state w) (playbackRef w) (delete id (timeouts w))
            (nextTimerId w) (effectDeps w).

(** The body of the effect. *)
Definition playbackEffect (w : Mounted) : Mounted :=
  let s := state w in
  if isPlaying s &&
     match analysis s with
     | Some a => lt (currentFrameIndex s) (Int (AnalysisResult.length a - 1))
     | None => false
     end
  then setTimeout 1500 w
  else if ge (currentFrameIndex s) (Int (orZero (framesLength s) - 1))
  then withState (setIsPlaying false s) w
  else w.

(** The function the effect returns: [if (playbackRef.current)
    clearTimeout(playbackRef.current)]; the identifier [0] is falsy. *)
Definition playbackCleanup (w : Mounted) : Mounted :=
  match playbackRef w with
  | Some id => if (id =? 0)%nat then w else clearTimeout id w
  | None => w
  end.

(** One commit: when a dependency changed since the effect last ran, the
    previous cleanup runs, then the effect. *)
Definition commit (w : Mounted) : Mounted :=
  let d := depsOf (state w) in
  match effectDeps w with
  | None =>
      playbackEffect
        (mkMounted (state w) (playbackRef w) (timeouts w) (nextTimerId w) (Some d))
  | Some d0 =>
      if decide (d0 = d) then w
      else
        let w1 := playbackCleanup w in
        playbackEffect
          (mkMounted (state w1) (playbackRef w1) (timeouts w1) (nextTimerId w1) (Some d))
  end.

(** Rendering until nothing changes: the effect can call [setIsPlaying],
    which renders and commits once more. *)
Definition settle (w : Mounted) : Mounted := commit (commit w).

(** The component after mounting. *)
Definition mount : Mounted :=
  settle (mkMounted initialState None ∅ 1%nat None).

(** *** Events *)

Inductive Event : Type :=
| ModeChange (newMode : EditorMode)
| CodeChange (text : jsstring)
| ThemeToggle
| RunClick
| RunSettled (o : Settled)
| Next
| Prev
| SliderChange (v : number)
| TogglePlay
| Timeout (id : TimerId).

(** The new state an event's handler leaves. *)
Definition handle (e : Event) (s : State) : State :=
  match e with
  | ModeChange m => handleModeChange m s
  | CodeChange text => setCode text s
  | ThemeToggle => setIsDarkMode (negb (isDarkMode s)) s
  | RunClick => fst (handleRun_begin s)
  | RunSettled o => handleRun_resume o s
  | Next => handleNext s
  | Prev => handlePrev s
  | SliderChange v => handleSliderChange v s
  | TogglePlay => togglePlay s
  | Timeout _ => setCurrentFrameIndex (add (currentFrameIndex s) 1) s
  end.

(** The handler of an event alone, before anything renders. A timeout
    runs its callback only while it is pending, and leaves the table when
    it does: [None] for a timeout that is not pending. *)
Definition perform (e : Event) (w : Mounted) : option Mounted :=
  match e with
  | Timeout id =>
      match timeouts w !! id with
      | Some _ =>
          Some (mkMounted (handle e (state w)) (playbackRef w)
                          (delete id (timeouts w)) (nextTimerId w) (effectDeps w))
      | None => None
      end
  | _ => Some (withState (handle e (state w)) w)
  end.

(** An event, then the renders and commits it causes. The updates of a
    handler, and those after an [await], are applied as one batch
    ([createRoot]). *)
Definition dispatch (e : Event) (w : Mounted) : Mounted :=
  match perform e w with
  | Some w1 => settle w1
  | None => w
  end.

(** The events the page can deliver in a state: the slider only delivers
    values of its range, and only while it is rendered. *)
Definition deliverable (s : State) (e : Event) : bool :=
  match e with
  | SliderChange v => sliderDelivers s v
  | _ => true
  end.

Inductive reachable : Mounted -> Prop :=
| reachable_mount : reachable mount
| reachable_dispatch w e :
    reachable w -> deliverable (state w) e = true -> reachable (dispatch e w).

End App.

(** ** components/Visualizer.tsx: the drawing effect *)

Module Visualizer.

Record VisualizerProps : Type := mkProps {
  nodes : list GraphNode.t;
  edges : list GraphEdge.t;
  loading : bool;
  isDarkMode : bool;
  emptyMessage : option jsstring
}.

(** *** d3-force, as far as the effect uses it

    [forceSimulation(nodes)] numbers the node objects; initialising the link
    force (when it is registered with [simulation.force("link", ...)])
    replaces the [source] and [target] identifier of every link by the node
    object of that identifier, found in a [Map] built with the [id]
    accessor, and throws when there is none (with the message of d3-force
    2 and 3). Positions and velocities are left out. *)

Record SimNode : Type := mkSimNode {
  index : nat;
  datum : GraphNode.t
}.

Record SimLink : Type := mkSimLink {
  linkIndex : nat;
  source : SimNode;
  target : SimNode;
  label : option jsstring
}.

Fixpoint initializeNodes (i : nat) (ds : list GraphNode.t) : list SimNode :=
  match ds with
  | [] => []
  | d :: rest => mkSimNode i d :: initializeNodes (S i) rest
  end.

(** [new Map(nodes.map((d, i) => [id(d, i, nodes), d]))] with the accessor
    [d => d.id]: a later node of the same identifier replaces an earlier. *)
Definition nodeById (ns : list SimNode) : gmap jsstring SimNode :=
  fold_left (fun m d => <[GraphNode.id (datum d) := d]> m) ns ∅.

Definition find (m : gmap jsstring SimNode) (nodeId : jsstring)
  : Completion SimNode :=
  match m !! nodeId with
  | Some node => Return node
  | None => Throw (lit "node not found: " ++ nodeId)
  end.

(** The loop of the link force over the links, in order. *)
Fixpoint initializeLinks (m : gmap jsstring SimNode) (i : nat)
    (ls : list GraphEdge.t) : Completion (list SimLink) :=
  match ls with
  | [] => Return []
  | l :: rest =>
      let* s := find m (GraphEdge.source l) in
      let* t := find m (GraphEdge.target l) in
      let* more := initializeLinks m (S i) rest in
      Return (mkSimLink i s t (GraphEdge.label l) :: more)
  end.

(** *** What the effect draws *)

Record Colors : Type := mkColors {
  background : jsstring;
  link : jsstring;
  linkHover : jsstring;
  text : jsstring;
  subText : jsstring;
  nodeStroke : jsstring;
  nodeText : jsstring;
  arrow : jsstring;
  pillBg : jsstring
}.

Definition colors (dark : bool) : Colors :=
  mkColors
    (if dark then lit "#0f172a" else lit "#f8fafc")
    (if dark then lit "#475569" else lit "#94a3b8")
    (if dark then lit "#94a3b8" else lit "#64748b")
    (if dark then lit "#e2e8f0" else lit "#1e293b")
    (if dark then lit "#94a3b8" else lit "#64748b")
    (if dark then lit "#1e293b" else lit "#ffffff")
    (lit "#ffffff")
    (if dark then lit "#475569" else lit "#94a3b8")
    (if dark then lit "#1e293b" else lit "#ffffff").

(** A [line] of the group [links], bound to its link. *)
Record LineElement : Type := mkLine {
  lineDatum : SimLink;
  lineStroke : jsstring
}.

(** A group of [link-labels]: the text, and whether the pill behind it is
    displayed. *)
Record LinkLabelElement : Type := mkLinkLabel {
  labelDatum : SimLink;
  labelText : jsstring;
  pillDisplayed : bool
}.

(** A group of [nodes]: the fill of the circle and the text in it. *)
Record NodeElement : Type := mkNodeElement {
  nodeDatum : SimNode;
  circleFill : jsstring;
  circleStroke : jsstring;
  nodeLabel : jsstring
}.

(** The content of the [svg] element: nothing, or the drawn graph (the
    geometry, which the simulation computes in floating point from text
    measurements, is not part of it). *)
Record Scene : Type := mkScene {
  arrowFill : jsstring;
  lines : list LineElement;
  linkLabels : list LinkLabelElement;
  nodeGroups : list NodeElement
}.

Inductive SvgContent : Type :=
| Blank
| Graph (scene : Scene).

(** [x || fallback] on an optional string. *)
Definition orElse (x : option jsstring) (fallback : jsstring) : jsstring :=
  match x with
  | Some s => if truthy s then s else fallback
  | None => fallback
  end.

(** [!d.label] *)
Definition labelMissing (x : option jsstring) : bool :=
  match x with
  | Some s => negb (truthy s)
  | None => true
  end.

(** The effect on [[propNodes, propEdges, dimensions, isDarkMode, loading]]:
    the content of the [svg] when it returns, from the content before.
    [svgMounted] is [svgRef.current] being set. *)
Definition draw (svgMounted : bool) (p : VisualizerProps) (before : SvgContent)
  : Completion SvgContent :=
  if loading p || negb svgMounted then Return before
  else if (length (nodes p) =? 0)%nat && (length (edges p) =? 0)%nat
  then Return Blank
  else
    let c := colors (isDarkMode p) in
    let simNodes := initializeNodes 0 (nodes p) in
    let* simLinks := initializeLinks (nodeById simNodes) 0 (edges p) in
    Return
      (Graph
         (mkScene (arrow c)
            (map (fun l => mkLine l (link c)) simLinks)
            (map (fun l => mkLinkLabel l (orElse (label l) [])
                             (negb (labelMissing (label l)))) simLinks)
            (map (fun d => mkNodeElement d
                             (orElse (GraphNode.color (datum d)) (lit "#3b82f6"))
                             (nodeStroke c)
                             (GraphNode.label (datum d))) simNodes))).

End Visualizer.

(** ** Invariants of the mounted component *)

Module Invariant.

Import App.

(** The cursor is a frame index: a non-negative integer, [0] while no
    analysis is loaded, and within the frames of a non-empty analysis. *)
Definition cursorOk (s : State) : Prop :=
  exists c, currentFrameIndex s = Int c /\ 0 <= c /\
    match analysis s with
    | Some a => 0 < AnalysisResult.length a -> c <= AnalysisResult.length a - 1
    | None => c = 0
    end.

(** The pending timeouts agree with the state: exactly the one the ref
    holds while playing below the last frame, none otherwise. *)
Definition timerOk (w : Mounted) : Prop :=
  if isPlaying (state w)
  then exists a c id,
         analysis (state w) = Some a /\ currentFrameIndex (state w) = Int c /\
         c < AnalysisResult.length a - 1 /\
         playbackRef w = Some id /\ timeouts w = {[ id := 1500 ]}
  else timeouts w = ∅.

(** Identifiers already handed out are positive and below the next one. *)
Definition idsOk (w : Mounted) : Prop :=
  (0 < nextTimerId w)%nat /\
  forall id, playbackRef w = Some id -> (0 < id < nextTimerId w)%nat.

(** The state between two events: the effect has run for the current
    dependencies and left everything as it is. *)
Definition stable (w : Mounted) : Prop :=
  effectDeps w = Some (depsOf (state w)) /\
  cursorOk (state w) /\ idsOk w /\ timerOk w.

(** The pending timeouts are at most the one the ref holds. *)
Definition refHoldsPending (w : Mounted) : Prop :=
  timeouts w = ∅ \/
  exists id, playbackRef w = Some id /\ timeouts w = {[ id := 1500 ]}.

(** Playing below the last frame. *)
Definition advancing (s : State) : Prop :=
  isPlaying s = true /\
  exists a c, analysis s = Some a /\ currentFrameIndex s = Int c /\
              c < AnalysisResult.length a - 1.

(** The sequencer operations of a call sequence. *)
Inductive Op : Type :=
| stepForward
| stepBackward
| seek (index : number).

Definition apply (o : Op) (s : State) : State :=
  match o with
  | stepForward => handleNext s
  | stepBackward => handlePrev s
  | seek v => handleSliderChange v s
  end.

Definition applyAll (os : list Op) (s : State) : State :=
  fold_left (fun s o => apply o s) os s.

(** The index of a seek lies within the frames [0 .. n-1]. *)
Definition seekWithin (n : Z) (o : Op) : Prop :=
  match o with
  | seek (Int z) => 0 <= z <= n - 1
  | seek NaN => False
  | _ => True
  end.

(** The cursor lies within the frames [0 .. n-1]. *)
Definition cursorWithin (n : Z) (s : State) : Prop :=
  exists c, currentFrameIndex s = Int c /\ 0 <= c <= n - 1.

(** *** The renderer *)

(** Both ends of the edge are identifiers of nodes. *)
Definition endpointsPresent (ids : list jsstring) (e : GraphEdge.t) : Prop :=
  In (GraphEdge.source e) ids /\ In (GraphEdge.target e) ids.

(** The edge a resolved link stands for. *)
Definition edgeOfLink (l : Visualizer.SimLink) : GraphEdge.t :=
  GraphEdge.mk
    (GraphNode.id (Visualizer.datum (Visualizer.source l)))
    (GraphNode.id (Visualizer.datum (Visualizer.target l)))
    (Visualizer.label l).

End Invariant.

(** ** Sample data *)

Module Sample.

Import App.

Definition frame (n : Z) (ns : list GraphNode.t) (es : list GraphEdge.t)
  : VisualizationFrame.t :=
  VisualizationFrame.mk (Int n) (lit "head = Node(1)") (lit "Node created") ns es.

Definition n1 : GraphNode.t := GraphNode.mk (lit "n1") (lit "1") (Some value) None.
Definition n2 : GraphNode.t := GraphNode.mk (lit "n2") (lit "2") None (Some (lit "#ef4444")).
Definition e12 : GraphEdge.t := GraphEdge.mk (lit "n1") (lit "n2") (Some (lit "next")).
(** an edge to a node that is in no frame *)
Definition e13 : GraphEdge.t := GraphEdge.mk (lit "n1") (lit "n3") None.

Definition analysisOf (fs : list VisualizationFrame.t) : AnalysisResult.t :=
  AnalysisResult.mk fs (lit "O(1)") (lit "O(1)") (lit "A linked list.") (lit "Linked List").

(** Three frames, indices 0, 1, 2. *)
Definition three : AnalysisResult.t :=
  analysisOf [frame 1 [n1] []; frame 2 [n1; n2] []; frame 3 [n1; n2] [e12]].

Definition one : AnalysisResult.t := analysisOf [frame 1 [n1] []].

Definition none : AnalysisResult.t := analysisOf [].

(** A state showing [a] at [cursor]. *)
Definition showing (a : option AnalysisResult.t) (cursor : number) (playing : bool)
  : State :=
  mkState PYTHON (CODE_TEMPLATES PYTHON) a 1%nat false None cursor playing true.

(** The component after a run that loaded [three]. *)
Definition loaded : Mounted :=
  dispatch (RunSettled (Fulfilled three)) (dispatch RunClick mount).

(** ... and after play was pressed. *)
Definition playing : Mounted := dispatch TogglePlay loaded.

(** The component after a run that loaded the single frame of [one]. *)
Definition loadedOne : Mounted :=
  dispatch (RunSettled (Fulfilled one)) (dispatch RunClick mount).

(** The component after the editor was emptied down to white space: a
    space, a line feed, a tab and a no-break space. *)
Definition blanked : Mounted :=
  dispatch (CodeChange [0x20%N; 0xA%N; 0x9%N; 0xA0%N]) mount.

(** A response text; the apostrophes stand for quotation marks. *)
Definition quoted (s : string) : jsstring :=
  map (fun c => if (c =? 0x27)%N then 0x22%N else c) (lit s).

Definition responseText : jsstring :=
  quoted "{'frames': [{'step': 1, 'lineCode': 'head = Node(1)', 'explanation': 'Node 1 created',
    'nodes': [{'id': 'n1', 'label': '1', 'type': 'value'}], 'edges': []},
   {'step': 2, 'lineCode': 'head.next = second', 'explanation': 'Pointer updated',
    'nodes': [{'id': 'n1', 'label': '1'}, {'id': 'n2', 'label': '2', 'color': '#ef4444'}],
    'edges': [{'source': 'n1', 'target': 'n2', 'label': 'next'}]}],
  'timeComplexity': 'O(1)', 'spaceComplexity': 'O(n)',
  'conceptExplanation': 'A linked list of two nodes.', 'detectedStructure': 'Linked List'}".

(** A response with no frame list. *)
Definition responseWithoutFrames : jsstring :=
  quoted "{'timeComplexity': 'O(1)', 'spaceComplexity': 'O(1)'}".

(** The hosted model answering every request with [text]. *)
Definition answering (text : option jsstring)
  : GeminiService.GenerateContentParameters -> GeminiService.GenerateContentOutcome :=
  fun _ => GeminiService.Response text.

(** Props for a frame with the nodes [n1], [n2] and the given edges. *)
Definition props (es : list GraphEdge.t) : Visualizer.VisualizerProps :=
  Visualizer.mkProps [n1; n2] es false true None.

End Sample.

(** ** index.tsx: what the component renders *)

Module View.

Import App.

(** [a === b] on numbers: false whenever one side is [NaN]. *)
Definition strictEq (a b : number) : bool :=
  match a, b with
  | Int x, Int y => x =? y
  | _, _ => false
  end.

(** [x || fallback] on an optional string. *)
Definition orElse (x : option jsstring) (fallback : jsstring) : jsstring :=
  match x with
  | Some t => if truthy t then t else fallback
  | None => fallback
  end.

(** The block of playback controls: the code trace line, the icon of the
    play button, the [disabled] attribute of the previous and next buttons
    and the attributes of the range input. *)
Record Controls : Type := mkControls {
  traceLine : jsstring;
  pauseIcon : bool;
  prevDisabled : bool;
  sliderMin : Z;
  sliderMax : Z;
  sliderValue : number;
  nextDisabled : bool
}.

(** [{analysis && analysis.frames.length > 0 && (...)}] *)
Definition controls (s : State) : option Controls :=
  match analysis s with
  | Some a =>
      if 0 <? AnalysisResult.length a
      then Some (mkControls
                   (orElse (VisualizationFrame.lineCode <$> currentFrame s) (lit "Start"))
                   (isPlaying s)
                   (strictEq (currentFrameIndex s) (Int 0))
                   0
                   (AnalysisResult.length a - 1)
                   (currentFrameIndex s)
                   (strictEq (currentFrameIndex s) (Int (AnalysisResult.length a - 1))))
      else None
  | None => None
  end.

(** [Step {currentFrameIndex + 1} / {analysis.frames.length}], under the
    same condition: the two numbers. *)
Definition stepCounter (s : State) : option (number * Z) :=
  match analysis s with
  | Some a =>
      if 0 <? AnalysisResult.length a
      then Some (add (currentFrameIndex s) 1, AnalysisResult.length a)
      else None
  | None => None
  end.

(** The [disabled] attribute of the run button. *)
Definition runDisabled (s : State) : bool := loading s.

(** The props handed to the visualizer: [currentFrame?.nodes || []] and
    [currentFrame?.edges || []] (an array, even an empty one, is truthy). *)
Definition visualizerProps (s : State) : Visualizer.VisualizerProps :=
  Visualizer.mkProps
    (match currentFrame s with Some f => VisualizationFrame.nodes f | None => [] end)
    (match currentFrame s with Some f => VisualizationFrame.edges f | None => [] end)
    (loading s)
    (isDarkMode s)
    (Some (lit "Enter code and click Visualize to see the step-by-step execution.")).



(** The box under the panel, [{currentFrame && (...)}]: the number in
    [Step n Explanation], the explanation, and the overall concept, which
    is there under [currentFrameIndex === analysis!.frames.length - 1]. *)
Definition explanationBox (s : State) : option (number * jsstring * option jsstring) :=
  match currentFrame s, analysis s with
  | Some f, Some a =>
      Some (add (currentFrameIndex s) 1,
            VisualizationFrame.explanation f,
            if strictEq (currentFrameIndex s) (Int (AnalysisResult.length a - 1))
            then Some (AnalysisResult.conceptExplanation a) else None)
  | _, _ => None
  end.

End View.

(** ** components/Visualizer.tsx: what the component renders, and the
    export *)

Module VisualizerView.

Import Visualizer.

(** The overlay [{loading && (...)}]. *)
Definition loadingOverlay (p : VisualizerProps) : bool := loading p.



(** *** [downloadImage]: the namespace declarations of the serialized svg *)

Fixpoint startsWith (prefix s : jsstring) : bool :=
  match prefix, s with
  | [], _ => true
  | c :: prefix', d :: s' => (c =? d)%N && startsWith prefix' s'
  | _ :: _, [] => false
  end.

(** The string after a prefix it starts with. *)
Fixpoint stripPrefix (prefix s : jsstring) : option jsstring :=
  match prefix, s with
  | [], _ => Some s
  | c :: prefix', d :: s' => if (c =? d)%N then stripPrefix prefix' s' else None
  | _ :: _, [] => None
  end.

(** [[^>]*] followed by the literal [attr], matched at the head of [s]. *)
Fixpoint restOfTag (attr s : jsstring) : bool :=
  startsWith attr s ||
  match s with
  | c :: s' => negb (c =? 0x3E)%N && restOfTag attr s'
  | [] => false
  end.

(** [source.match(/^<svg[^>]+ATTR/)], for a literal [attr]. *)
Definition matchesSvgWith (attr source : jsstring) : bool :=
  match stripPrefix (lit "<svg") source with
  | Some (c :: rest) => negb (c =? 0x3E)%N && restOfTag attr rest
  | _ => false
  end.

(** [source.replace(/^<svg/, replacement)] *)
Definition replaceSvg (replacement source : jsstring) : jsstring :=
  match stripPrefix (lit "<svg") source with
  | Some rest => replacement ++ rest
  | None => source
  end.

Definition quote : jsstring := [0x22%N].

Definition XMLNS : jsstring :=
  lit "xmlns=" ++ quote ++ lit "http://www.w3.org/2000/svg" ++ quote.

Definition XMLNS_XLINK : jsstring :=
  lit "xmlns:xlink=" ++ quote ++ lit "http://www.w3.org/1999/xlink" ++ quote.

(** The two [if] statements of [downloadImage] on the serialized source. *)
Definition declareNamespaces (source : jsstring) : jsstring :=
  let source1 :=
    if negb (matchesSvgWith XMLNS source)
    then replaceSvg (lit "<svg " ++ XMLNS) source else source in
  if negb (matchesSvgWith XMLNS_XLINK source1)
  then replaceSvg (lit "<svg " ++ XMLNS_XLINK) source1 else source1.

End VisualizerView.

(** ** The page: the component with the calls it is waiting for

    The events the rendered page lets through: the run button is
    [disabled={loading}], the playback controls are in the tree only with a
    non-empty analysis, the previous and next buttons carry their
    [disabled] attribute, and a promise settles once for each call of
    [analyzeCode]. *)

Module Page.

Import App.

Record Page : Type := mkPage {
  component : Mounted;
  awaited : nat       (* calls of [analyzeCode] not settled yet *)
}.

Definition isSome {A : Type} (x : option A) : bool :=
  match x with Some _ => true | None => false end.

Definition enabled (p : Page) (e : Event) : bool :=
  let s := state (component p) in
  match e with
  | ModeChange _ | CodeChange _ | ThemeToggle | Timeout _ => true
  | RunClick => negb (View.runDisabled s)
  | RunSettled _ => (0 <? awaited p)%nat
  | Next =>
      match View.controls s with
      | Some c => negb (View.nextDisabled c)
      | None => false
      end
  | Prev =>
      match View.controls s with
      | Some c => negb (View.prevDisabled c)
      | None => false
      end
  | SliderChange v => sliderDelivers s v
  | TogglePlay => isSome (View.controls s)
  end.

Definition act (e : Event) (p : Page) : Page :=
  mkPage (dispatch e (component p))
    (match e with
     | RunClick =>
         if isSome (snd (handleRun_begin (state (component p))))
         then S (awaited p) else awaited p
     | RunSettled _ => Nat.pred (awaited p)
     | _ => awaited p
     end).

Definition opened : Page := mkPage mount 0.

Inductive reachable : Page -> Prop :=
| reachable_opened : reachable opened
| reachable_act p e : reachable p -> enabled p e = true -> reachable (act e p).

(** 1500 milliseconds with no other event: the timeout the ref holds fires,
    if it is pending. *)
Definition elapse (w : Mounted) : Mounted :=
  match playbackRef w with
  | Some id => dispatch (Timeout id) w
  | None => w
  end.

End Page.

(** ** Invariants of the page *)

Module PageInvariant.

Import App Invariant.

(** The one message [handleRun] sets. *)
Definition failureMessage : jsstring :=
  lit "Analysis failed. Please try again or check your API key.".

(** What holds of the state cells on every page the user can reach. *)
Definition cellsOk (s : State) : Prop :=
  (loading s = true -> analysis s = None /\ error s = None) /\
  (error s = None \/ (error s = Some failureMessage /\ analysis s = None)) /\
  (controlsRendered s = false -> currentFrameIndex s = Int 0).

Definition pageOk (p : Page.Page) : Prop :=
  stable (Page.component p) /\
  cellsOk (state (Page.component p)) /\
  Page.awaited p = (if loading (state (Page.component p)) then 1 else 0)%nat.

End PageInvariant.

(** ** The link force, in words of the frame *)

Module Links.

Import Visualizer.

(** The first identifier, in the order the link force looks them up, that
    no node has. *)
Fixpoint firstMissing (ids : list jsstring) (es : list GraphEdge.t)
  : option jsstring :=
  match es with
  | [] => None
  | e :: rest =>
      if negb (bool_decide (GraphEdge.source e ∈ ids)) then Some (GraphEdge.source e)
      else if negb (bool_decide (GraphEdge.target e ∈ ids)) then Some (GraphEdge.target e)
      else firstMissing ids rest
  end.


End Links.

(** ** Scenarios *)

Module Scenario.

Import App.

(** The page while the first run is awaited. *)
Definition waiting : Page.Page := Page.act RunClick Page.opened.


(** ... after the call answered with the three frames. *)
Definition showing : Page.Page :=
  Page.act (RunSettled (Fulfilled Sample.three)) waiting.

(** ... and playing them. *)
Definition playing : Page.Page := Page.act TogglePlay showing.



(** Edges, and no node at all. *)
Definition edgesOnly : Visualizer.VisualizerProps :=
  Visualizer.mkProps [] [Sample.e12] false true None.

(** A serialized svg that declares no namespace. *)
Definition bareSvg : jsstring :=
  lit "<svg width=" ++ VisualizerView.quote ++ lit "100%" ++ VisualizerView.quote
  ++ lit "><g></g></svg>".


End Scenario.

Import Json GeminiService App Invariant.

(** * Theorems *)

(** ** Strings *)

Lemma trimStart_nil_iff (s : jsstring) :
  trimStart s = [] <-> forallb isWhiteSpace s = true.
Proof.
  induction s as [|u s IH]; simpl.
  - split; reflexivity.
  - destruct (isWhiteSpace u); simpl.
    + exact IH.
    + split; discriminate.
Qed.

Lemma trimStart_idempotent (s : jsstring) :
  trimStart (trimStart s) = trimStart s.
Proof.
  induction s as [|u s IH]; simpl; [reflexivity|].
  destruct (isWhiteSpace u) eqn:E; [exact IH|].
  simpl. rewrite E. reflexivity.
Qed.

Lemma forallb_rev_true {A : Type} (f : A -> bool) (l : list A) :
  forallb f (rev l) = true <-> forallb f l = true.
Proof.
  rewrite !forallb_forall. split; intros H x Hx; apply H.
  - apply in_rev in Hx. exact Hx.
  - apply in_rev. exact Hx.
Qed.

Lemma trim_nil_iff (s : jsstring) :
  trim s = [] <-> forallb isWhiteSpace s = true.
Proof.
  unfold trim, trimEnd. rewrite <- trimStart_nil_iff. split.
  - intros H. apply (f_equal (@rev N)) in H. rewrite rev_involutive in H.
    simpl in H. apply (proj1 (trimStart_nil_iff _)) in H.
    apply (proj1 (forallb_rev_true _ _)) in H.
    apply (proj2 (trimStart_nil_iff _)) in H.
    rewrite trimStart_idempotent in H. exact H.
  - intros H. rewrite H. reflexivity.
Qed.

(** ** The handlers, one by one *)

Ltac state_eq :=
  repeat match goal with
         | s : State |- _ => destruct s
         end;
  simpl in *; subst; simpl; try reflexivity; try congruence.

Lemma setIsPlaying_same (s : State) (b : bool) :
  isPlaying s = b -> setIsPlaying b s = s.
Proof. intros H. state_eq. Qed.

Lemma handleNext_advance (s : State) (a : AnalysisResult.t) (c : Z) :
  analysis s = Some a -> currentFrameIndex s = Int c ->
  c < AnalysisResult.length a - 1 ->
  handleNext s = setIsPlaying false (setCurrentFrameIndex (Int (c + 1)) s).
Proof.
  intros Ha Hc Hlt. unfold handleNext. rewrite Ha, Hc. simpl.
  destruct (Z.ltb_spec c (AnalysisResult.length a - 1)); [reflexivity | lia].
Qed.

Lemma handleNext_last (s : State) (a : AnalysisResult.t) (c : Z) :
  analysis s = Some a -> currentFrameIndex s = Int c ->
  AnalysisResult.length a - 1 <= c ->
  handleNext s = s.
Proof.
  intros Ha Hc Hge. unfold handleNext. rewrite Ha, Hc. simpl.
  destruct (Z.ltb_spec c (AnalysisResult.length a - 1)); [lia | reflexivity].
Qed.

Lemma handleNext_no_analysis (s : State) :
  analysis s = None -> handleNext s = s.
Proof. intros Ha. unfold handleNext. rewrite Ha. reflexivity. Qed.

Lemma handleNext_NaN (s : State) :
  currentFrameIndex s = NaN -> handleNext s = s.
Proof.
  intros Hc. unfold handleNext. rewrite Hc. destruct (analysis s); reflexivity.
Qed.

Lemma handlePrev_back (s : State) (c : Z) :
  currentFrameIndex s = Int c -> 0 < c ->
  handlePrev s = setIsPlaying false (setCurrentFrameIndex (Int (c - 1)) s).
Proof.
  intros Hc Hlt. unfold handlePrev, gt. rewrite Hc. simpl.
  destruct (Z.ltb_spec 0 c); [reflexivity | lia].
Qed.

Lemma handlePrev_first (s : State) (c : Z) :
  currentFrameIndex s = Int c -> c <= 0 -> handlePrev s = s.
Proof.
  intros Hc Hle. unfold handlePrev, gt. rewrite Hc. simpl.
  destruct (Z.ltb_spec 0 c); [lia | reflexivity].
Qed.

Lemma handlePrev_NaN (s : State) :
  currentFrameIndex s = NaN -> handlePrev s = s.
Proof. intros Hc. unfold handlePrev, gt. rewrite Hc. reflexivity. Qed.

(** C7. [stepForward] ([handleNext]) adds exactly one to the cursor and
    stops playing when the cursor is below the last index, and otherwise
    returns the state it was given; [stepBackward] ([handlePrev]) subtracts
    one and stops playing when the cursor is above [0], and otherwise
    returns the state it was given. Both are total functions of the state:
    there is no failing case at the last index or at index [0]. The two
    moves are stated for a cursor that is a safe integer, of magnitude below
    [2 ^ 53], where [prev + 1] and [prev - 1] are exact on the source's
    doubles; every frame index is one. The two cases that change nothing
    only compare, and hold for every cursor. *)
Theorem C7_step_forward_backward (s : State) :
  (forall a c,
      analysis s = Some a -> currentFrameIndex s = Int c -> safeInteger c ->
      c < AnalysisResult.length a - 1 ->
      handleNext s = setIsPlaying false (setCurrentFrameIndex (Int (c + 1)) s))
  /\ ((forall a c,
         analysis s = Some a -> currentFrameIndex s = Int c ->
         AnalysisResult.length a - 1 <= c) ->
      handleNext s = s)
  /\ (forall c,
        currentFrameIndex s = Int c -> safeInteger c -> 0 < c ->
        handlePrev s = setIsPlaying false (setCurrentFrameIndex (Int (c - 1)) s))
  /\ ((forall c, currentFrameIndex s = Int c -> c <= 0) ->
      handlePrev s = s).
Proof.
  split; [|split; [|split]].
  - intros a c Ha Hc _. apply (handleNext_advance s a c Ha Hc).
  - intros H. destruct (analysis s) as [a|] eqn:Ha.
    + destruct (currentFrameIndex s) as [c|] eqn:Hc.
      * apply (handleNext_last s a c Ha Hc). apply (H a c); reflexivity.
      * apply handleNext_NaN. exact Hc.
    + apply handleNext_no_analysis. exact Ha.
  - intros c Hc _. apply (handlePrev_back s c Hc).
  - intros H. destruct (currentFrameIndex s) as [c|] eqn:Hc.
    + apply (handlePrev_first s c Hc). apply H. reflexivity.
    + apply handlePrev_NaN. exact Hc.
Qed.

(** The scenario of three frames: forward from 1 gives 2, forward at 2 and
    backward at 0 change nothing, backward from 1 gives 0. The cursor [1]
    is a safe integer. *)
Lemma C7_step_forward_backward_witness :
  handleNext (Sample.showing (Some Sample.three) (Int 1) true)
    = Sample.showing (Some Sample.three) (Int 2) false
  /\ handleNext (Sample.showing (Some Sample.three) (Int 2) true)
    = Sample.showing (Some Sample.three) (Int 2) true
  /\ handlePrev (Sample.showing (Some Sample.three) (Int 1) true)
    = Sample.showing (Some Sample.three) (Int 0) false
  /\ handlePrev (Sample.showing (Some Sample.three) (Int 0) true)
    = Sample.showing (Some Sample.three) (Int 0) true.
Proof.
  split; [|split; [|split]].
  - destruct (C7_step_forward_backward (Sample.showing (Some Sample.three) (Int 1) true))
      as (H & _).
    rewrite (H Sample.three 1);
      [reflexivity | reflexivity | reflexivity
       | vm_compute; split; discriminate | reflexivity].
  - destruct (C7_step_forward_backward (Sample.showing (Some Sample.three) (Int 2) true))
      as (_ & H & _).
    apply H. intros a c Ha Hc. injection Ha as <-. injection Hc as <-.
    vm_compute. discriminate.
  - destruct (C7_step_forward_backward (Sample.showing (Some Sample.three) (Int 1) true))
      as (_ & _ & H & _).
    rewrite (H 1);
      [reflexivity | reflexivity | vm_compute; split; discriminate | reflexivity].
  - destruct (C7_step_forward_backward (Sample.showing (Some Sample.three) (Int 0) true))
      as (_ & _ & _ & H).
    apply H. intros c Hc. injection Hc as <-. lia.
Defined.

(** *** Runs *)

Lemma handleRun_begin_blank (s : State) :
  forallb isWhiteSpace (code s) = true -> handleRun_begin s = (s, None).
Proof.
  intros H. apply trim_nil_iff in H. unfold handleRun_begin. rewrite H.
  reflexivity.
Qed.

Lemma handleRun_begin_calls (s : State) :
  truthy (trim (code s)) = true ->
  handleRun_begin s
    = (setIsPlaying false
         (setCurrentFrameIndex (Int 0)
           (setAnalysis None (setError None (setLoading true s)))),
       Some (code s, mode s)).
Proof. intros H. unfold handleRun_begin. rewrite H. reflexivity. Qed.

(** C2, as the claim states it, fails: a failed run over a loaded analysis
    of three frames leaves no analysis at all. *)
Lemma C2_previous_analysis_lost :
  let s := Sample.showing (Some Sample.three) (Int 1) false in
  analysis s = Some Sample.three /\
  analysis (handleRun Rejected s) = None /\
  analysis (handleRun Rejected s) <> analysis s.
Proof. vm_compute. repeat split. discriminate. Qed.

(** ** The playback effect *)

Lemma commit_same (w : Mounted) :
  effectDeps w = Some (depsOf (state w)) -> commit w = w.
Proof.
  intros H. unfold commit. rewrite H.
  destruct (decide _) as [_|n]; [reflexivity | congruence].
Qed.

Lemma playbackEffect_arm (w : Mounted) (a : AnalysisResult.t) (c : Z) :
  isPlaying (state w) = true -> analysis (state w) = Some a ->
  currentFrameIndex (state w) = Int c -> c < AnalysisResult.length a - 1 ->
  playbackEffect w = setTimeout 1500 w.
Proof.
  intros Hp Ha Hc Hlt. unfold playbackEffect. rewrite Hp, Ha, Hc. simpl.
  destruct (Z.ltb_spec c (AnalysisResult.length a - 1)); [reflexivity | lia].
Qed.

(** When the state is not (playing below the last frame) and the cursor is a frame index. *)
Lemma playbackEffect_stop (w : Mounted) :
  cursorOk (state w) ->
  (isPlaying (state w) = true ->
   forall a c, analysis (state w) = Some a -> currentFrameIndex (state w) = Int c ->
               AnalysisResult.length a - 1 <= c) ->
  playbackEffect w = withState (setIsPlaying false (state w)) w.
Proof.
  intros (c & Hc & Hc0 & Hca) Hstop. unfold playbackEffect, framesLength.
  rewrite Hc. destruct (isPlaying (state w)) eqn:Hp; simpl.
  - destruct (analysis (state w)) as [a|] eqn:Ha; simpl.
    + specialize (Hstop eq_refl a c eq_refl Hc).
      destruct (Z.ltb_spec c (AnalysisResult.length a - 1)); [lia|].
      destruct (Z.leb_spec (AnalysisResult.length a - 1) c); [reflexivity | lia].
    + destruct (Z.leb_spec (0 - 1) c); [reflexivity | lia].
  - destruct (analysis (state w)) as [a|] eqn:Ha; simpl.
    + destruct (Z.leb_spec (AnalysisResult.length a - 1) c); [reflexivity|].
      rewrite (setIsPlaying_same _ _ Hp). destruct w; reflexivity.
    + destruct (Z.leb_spec (0 - 1) c); [reflexivity | lia].
Qed.

Lemma playbackCleanup_clears (w : Mounted) :
  idsOk w -> refHoldsPending w ->
  playbackCleanup w
    = mkMounted (state w) (playbackRef w) ∅ (nextTimerId w) (effectDeps w).
Proof.
  intros [_ Hid] Hpend. unfold playbackCleanup, clearTimeout.
  destruct (playbackRef w) as [id|] eqn:Hr.
  - specialize (Hid id eq_refl).
    destruct (Nat.eqb_spec id 0) as [->|_]; [lia|].
    destruct Hpend as [-> | (id' & Hid' & ->)].
    + rewrite delete_empty. reflexivity.
    + rewrite Hr in Hid'. injection Hid' as <-.
      rewrite delete_singleton_eq. reflexivity.
  - destruct Hpend as [He | (id' & Hid' & _)]; [|congruence].
    destruct w; simpl in *; subst; reflexivity.
Qed.

Lemma commit_changed (w : Mounted) (d0 : Deps) :
  effectDeps w = Some d0 -> d0 <> depsOf (state w) ->
  idsOk w -> refHoldsPending w ->
  commit w
    = playbackEffect
        (mkMounted (state w) (playbackRef w) ∅ (nextTimerId w)
                   (Some (depsOf (state w)))).
Proof.
  intros Hd Hne Hids Hpend. unfold commit. rewrite Hd.
  destruct (decide _) as [e|_]; [contradiction|].
  rewrite (playbackCleanup_clears w Hids Hpend). reflexivity.
Qed.

Lemma advancing_dec (s : State) : advancing s \/ ~ advancing s.
Proof.
  unfold advancing.
  destruct (isPlaying s); [|right; intros [? _]; discriminate].
  destruct (analysis s) as [a|]; [|right; intros (_ & ? & ? & ? & _); discriminate].
  destruct (currentFrameIndex s) as [c|];
    [|right; intros (_ & ? & ? & _ & ? & _); discriminate].
  destruct (Z.lt_ge_cases c (AnalysisResult.length a - 1)).
  - left. eauto 10.
  - right. intros (_ & a' & c' & Ha & Hc & Hlt).
    injection Ha as <-. injection Hc as <-. lia.
Qed.

Lemma settle_changed_advancing (w : Mounted) (d0 : Deps) :
  effectDeps w = Some d0 -> d0 <> depsOf (state w) ->
  idsOk w -> refHoldsPending w -> advancing (state w) ->
  settle w
    = mkMounted (state w) (Some (nextTimerId w)) {[ nextTimerId w := 1500 ]}
                (S (nextTimerId w)) (Some (depsOf (state w))).
Proof.
  intros Hd Hne Hids Hpend (Hp & a & c & Ha & Hc & Hlt). unfold settle.
  rewrite (commit_changed w d0 Hd Hne Hids Hpend).
  rewrite (playbackEffect_arm
             (mkMounted (state w) (playbackRef w) ∅ (nextTimerId w)
                        (Some (depsOf (state w)))) a c Hp Ha Hc Hlt).
  unfold setTimeout. simpl. rewrite insert_empty.
  apply commit_same. reflexivity.
Qed.

Lemma settle_changed_stopped (w : Mounted) (d0 : Deps) :
  effectDeps w = Some d0 -> d0 <> depsOf (state w) ->
  idsOk w -> refHoldsPending w -> cursorOk (state w) ->
  ~ advancing (state w) ->
  settle w
    = mkMounted (setIsPlaying false (state w)) (playbackRef w) ∅
                (nextTimerId w) (Some (depsOf (setIsPlaying false (state w)))).
Proof.
  intros Hd Hne Hids Hpend Hcur Hnot. unfold settle.
  rewrite (commit_changed w d0 Hd Hne Hids Hpend).
  assert (Hstop : forall s, cursorOk s -> ~ advancing s ->
            isPlaying s = true ->
            forall a c, analysis s = Some a -> currentFrameIndex s = Int c ->
                        AnalysisResult.length a - 1 <= c).
  { intros s _ Hn Hp a c Ha Hc.
    destruct (Z.lt_ge_cases c (AnalysisResult.length a - 1)); [|lia].
    exfalso. apply Hn. split; [exact Hp|]. eauto. }
  rewrite playbackEffect_stop; simpl; [|exact Hcur|exact (Hstop _ Hcur Hnot)].
  unfold withState. simpl.
  destruct (isPlaying (state w)) eqn:Hp.
  - (* the effect stopped playback: one more commit *)
    rewrite (commit_changed _ (depsOf (state w))); simpl.
    + rewrite playbackEffect_stop; simpl.
      * unfold withState. simpl. f_equal; destruct (state w); reflexivity.
      * destruct Hcur as (c & Hc & H0 & Ha). exists c.
        destruct (state w); simpl in *. auto.
      * intros; discriminate.
    + reflexivity.
    + unfold depsOf. simpl. rewrite Hp. intros E. discriminate.
    + exact Hids.
    + left. reflexivity.
  - rewrite (setIsPlaying_same _ _ Hp). apply commit_same. reflexivity.
Qed.

Lemma settle_same (w : Mounted) :
  effectDeps w = Some (depsOf (state w)) -> settle w = w.
Proof. intros H. unfold settle. rewrite !(commit_same w H). reflexivity. Qed.

Lemma stable_settle (w : Mounted) (d0 : Deps) :
  effectDeps w = Some d0 -> cursorOk (state w) -> idsOk w ->
  (d0 = depsOf (state w) -> timerOk w) ->
  (d0 <> depsOf (state w) -> refHoldsPending w) ->
  stable (settle w).
Proof.
  intros Hd Hcur Hids Hsame Hdiff.
  destruct (decide (d0 = depsOf (state w))) as [e|n].
  - rewrite settle_same by congruence.
    split; [congruence|]. split; [exact Hcur|]. split; [exact Hids|]. auto.
  - specialize (Hdiff n). destruct (advancing_dec (state w)) as [Hadv|Hnot].
    + rewrite (settle_changed_advancing w d0 Hd n Hids Hdiff Hadv).
      destruct Hids as [Hpos Hid]. destruct Hadv as (Hp & a & c & Ha & Hc & Hlt).
      split; [reflexivity|]. split; [exact Hcur|]. split.
      * split; simpl; [lia|]. intros id [= <-]. lia.
      * unfold timerOk. simpl. rewrite Hp. eauto 10.
    + rewrite (settle_changed_stopped w d0 Hd n Hids Hdiff Hcur Hnot).
      split; [reflexivity|]. split; [exact Hcur|]. split; [exact Hids|].
      reflexivity.
Qed.

Lemma stable_refHoldsPending (w : Mounted) : stable w -> refHoldsPending w.
Proof.
  intros (_ & _ & _ & Ht). unfold timerOk in Ht.
  destruct (isPlaying (state w)).
  - destruct Ht as (a & c & id & _ & _ & _ & Hr & Hm). right. eauto.
  - left. exact Ht.
Qed.

Lemma handle_same_deps_analysis (e : Event) (s : State) :
  depsOf (handle e s) = depsOf s -> analysis (handle e s) = analysis s.
Proof.
  destruct e as [m|text| | |[r|]| | |v| |id]; simpl; intros H.
  - unfold depsOf in H. simpl in H.
    destruct (analysis s); [discriminate | reflexivity].
  - reflexivity.
  - reflexivity.
  - unfold handleRun_begin in *. destruct (negb _); simpl in *; [reflexivity|].
    unfold depsOf in H. simpl in H.
    destruct (analysis s); [discriminate | reflexivity].
  - exfalso. unfold handleRun_fulfilled, depsOf in H.
    destruct (0 <? _); simpl in H; destruct (analysis s);
      injection H; intros; try discriminate; lia.
  - reflexivity.
  - unfold handleNext. destruct (analysis s) eqn:E; [|exact E].
    destruct (lt _ _); simpl; exact E.
  - unfold handlePrev. destruct (gt _ _); reflexivity.
  - reflexivity.
  - unfold togglePlay. destruct (ge _ _); reflexivity.
  - reflexivity.
Qed.

Lemma handle_cursorOk (e : Event) (s : State) :
  cursorOk s -> deliverable s e = true ->
  (forall id, e = Timeout id -> advancing s) ->
  cursorOk (handle e s).
Proof.
  intros (c & Hc & H0 & Ha) Hdel Hadv. unfold cursorOk.
  destruct e as [m|text| | |[r|]| | |v| |id]; simpl.
  - exists 0. repeat split; lia.
  - exists c. auto.
  - exists c. auto.
  - unfold handleRun_begin. destruct (negb _); simpl.
    + exists c. auto.
    + exists 0. repeat split; lia.
  - unfold handleRun_fulfilled.
    destruct (Z.ltb_spec 0 (AnalysisResult.length r)); simpl.
    + exists 0. repeat split; lia.
    + exists c. repeat split; try assumption. lia.
  - exists c. auto.
  - unfold handleNext. destruct (analysis s) as [a|] eqn:Ea.
    + rewrite Hc. simpl.
      destruct (Z.ltb_spec c (AnalysisResult.length a - 1)); simpl.
      * exists (c + 1). rewrite Ea. repeat split; lia.
      * exists c. rewrite Ea. auto.
    + exists c. rewrite Ea. auto.
  - unfold handlePrev, gt. rewrite Hc. simpl.
    destruct (Z.ltb_spec 0 c); simpl.
    + exists (c - 1). destruct (analysis s); repeat split; lia.
    + exists c. auto.
  - simpl in Hdel. unfold sliderDelivers, controlsRendered, framesLength in Hdel.
    destruct (analysis s) as [a|]; simpl in Hdel; [|discriminate].
    destruct v as [z|]; [|rewrite andb_false_r in Hdel; discriminate].
    apply andb_prop in Hdel as [_ Hz]. apply andb_prop in Hz as [Hz0 Hz1].
    exists z. repeat split; lia.
  - unfold togglePlay. destruct (ge _ _); simpl.
    + exists 0. destruct (analysis s); repeat split; lia.
    + exists c. auto.
  - destruct (Hadv id eq_refl) as (_ & a & c' & Ea & Ec & Hlt).
    rewrite Ec. simpl. exists (c' + 1). rewrite Ea.
    rewrite Hc in Ec. injection Ec as <-. repeat split; lia.
Qed.

Lemma mount_stable : stable mount.
Proof.
  split; [reflexivity|]. split; [|split].
  - exists 0. repeat split; lia.
  - split; [vm_compute; lia|]. intros id H. discriminate.
  - reflexivity.
Qed.

Lemma timerOk_withState (w : Mounted) (s : State) :
  timerOk w -> depsOf s = depsOf (state w) -> analysis s = analysis (state w) ->
  timerOk (withState s w).
Proof.
  unfold timerOk, depsOf. simpl. intros Ht Hd Ha.
  injection Hd as Hp Hc _. rewrite Hp, Hc, Ha. exact Ht.
Qed.

Lemma stable_pending (w : Mounted) (id : TimerId) (delay : Z) :
  stable w -> timeouts w !! id = Some delay ->
  advancing (state w) /\ playbackRef w = Some id /\ timeouts w = {[ id := 1500 ]}.
Proof.
  intros (_ & _ & _ & Ht) Hl. unfold timerOk in Ht.
  destruct (isPlaying (state w)) eqn:Hp.
  - destruct Ht as (a & c & id0 & Ha & Hc & Hlt & Hr & Hm).
    rewrite Hm in Hl. apply lookup_singleton_Some in Hl as [<- _].
    repeat split; try assumption. eauto.
  - rewrite Ht in Hl. rewrite lookup_empty in Hl. discriminate.
Qed.

Lemma dispatch_stable (e : Event) (w : Mounted) :
  stable w -> deliverable (state w) e = true -> stable (dispatch e w).
Proof.
  intros Hst Hdel. pose proof Hst as (Hd & Hcur & Hids & Ht).
  assert (Hgen : (forall id, e <> Timeout id) ->
                 stable (settle (withState (handle e (state w)) w))).
  { intros Hne. apply (stable_settle _ (depsOf (state w))); simpl.
    - exact Hd.
    - apply handle_cursorOk; [exact Hcur | exact Hdel |].
      intros id E. destruct (Hne id E).
    - exact Hids.
    - intros E. apply timerOk_withState; [exact Ht | congruence |].
      apply handle_same_deps_analysis. congruence.
    - intros _. apply stable_refHoldsPending in Hst. exact Hst. }
  destruct e; try (apply Hgen; intros ? ?; discriminate).
  unfold dispatch, perform.
  destruct (timeouts w !! id) as [delay|] eqn:Hl; [|exact Hst].
  destruct (stable_pending w id delay Hst Hl) as (Hadv & Hr & Hm).
  apply (stable_settle _ (depsOf (state w))); simpl.
  - exact Hd.
  - apply (handle_cursorOk (Timeout id)); [exact Hcur | reflexivity |].
    intros ? _. exact Hadv.
  - exact Hids.
  - intros E. exfalso. destruct Hadv as (_ & a & c & _ & Hc & _).
    unfold depsOf in E. simpl in E. rewrite Hc in E. simpl in E.
    injection E; intros; lia.
  - intros _. left. simpl. rewrite Hm. apply delete_singleton_eq.
Qed.

Lemma reachable_stable (w : Mounted) : reachable w -> stable w.
Proof.
  induction 1 as [|w e _ IH Hdel].
  - exact mount_stable.
  - exact (dispatch_stable e w IH Hdel).
Qed.

(** ** States of the mounted component *)

Lemma state_playbackCleanup (w : Mounted) : state (playbackCleanup w) = state w.
Proof.
  unfold playbackCleanup. destruct (playbackRef w) as [id|]; [|reflexivity].
  destruct (id =? 0)%nat; reflexivity.
Qed.

Lemma state_playbackEffect (w : Mounted) :
  state (playbackEffect w) = state w \/
  state (playbackEffect w) = setIsPlaying false (state w).
Proof.
  unfold playbackEffect. destruct (_ && _); [left; reflexivity|].
  destruct (ge _ _); [right | left]; reflexivity.
Qed.

Lemma state_commit (w : Mounted) :
  state (commit w) = state w \/ state (commit w) = setIsPlaying false (state w).
Proof.
  unfold commit. destruct (effectDeps w) as [d0|].
  - destruct (decide _); [left; reflexivity|].
    match goal with |- context [playbackEffect ?x] =>
      destruct (state_playbackEffect x) as [E|E]; rewrite E; simpl;
      rewrite state_playbackCleanup; auto
    end.
  - match goal with |- context [playbackEffect ?x] =>
      destruct (state_playbackEffect x) as [E|E]; rewrite E; simpl; auto
    end.
Qed.

Lemma state_settle (w : Mounted) :
  state (settle w) = state w \/ state (settle w) = setIsPlaying false (state w).
Proof.
  unfold settle.
  destruct (state_commit (commit w)) as [E|E], (state_commit w) as [E'|E'];
    rewrite E, E'; auto.
Qed.

Lemma settle_cursor (w : Mounted) :
  currentFrameIndex (state (settle w)) = currentFrameIndex (state w).
Proof. destruct (state_settle w) as [E|E]; rewrite E; reflexivity. Qed.

Lemma settle_analysis (w : Mounted) :
  analysis (state (settle w)) = analysis (state w).
Proof. destruct (state_settle w) as [E|E]; rewrite E; reflexivity. Qed.

Lemma withState_state (w : Mounted) : withState (state w) w = w.
Proof. destruct w; reflexivity. Qed.

Lemma stable_playing (w : Mounted) :
  stable w -> isPlaying (state w) = true -> advancing (state w).
Proof.
  intros (_ & _ & _ & Ht) Hp. unfold timerOk in Ht. rewrite Hp in Ht.
  destruct Ht as (a & c & id & Ha & Hc & Hlt & _). split; eauto.
Qed.

(** C9. In every state the mounted component can be in between two events
    (the effect has run), [isPlaying] implies that an analysis with frames
    is loaded and the cursor is strictly below its last index. Hence
    [togglePlay] with no analysis, or with an analysis of at most one frame,
    sets the cursor to [0] and leaves [isPlaying] false once the effect has
    run. *)
Theorem C9_playing_only_below_last (w : Mounted) :
  reachable w ->
  (isPlaying (state w) = true ->
   exists a c,
     analysis (state w) = Some a /\ AnalysisResult.frames a <> [] /\
     currentFrameIndex (state w) = Int c /\
     0 <= c < AnalysisResult.length a - 1)
  /\ ((forall a, analysis (state w) = Some a -> AnalysisResult.length a <= 1) ->
      currentFrameIndex (togglePlay (state w)) = Int 0 /\
      currentFrameIndex (state (dispatch TogglePlay w)) = Int 0 /\
      isPlaying (state (dispatch TogglePlay w)) = false).
Proof.
  intros Hr. pose proof (reachable_stable w Hr) as Hst. split.
  - intros Hp. destruct (stable_playing w Hst Hp) as (_ & a & c & Ha & Hc & Hlt).
    destruct Hst as (_ & (c' & Hc' & H0 & _) & _).
    rewrite Hc in Hc'. injection Hc' as <-.
    exists a, c. repeat split; try assumption.
    intros Hnil. unfold AnalysisResult.length in Hlt. rewrite Hnil in Hlt.
    simpl in Hlt. lia.
  - intros Hshort.
    assert (Hcur : currentFrameIndex (togglePlay (state w)) = Int 0).
    { destruct Hst as (_ & (c & Hc & H0 & Hca) & _).
      unfold togglePlay, framesLength. rewrite Hc.
      destruct (analysis (state w)) as [a|] eqn:Ha; simpl.
      - specialize (Hshort a eq_refl).
        assert (0 <= AnalysisResult.length a)
          by (unfold AnalysisResult.length; lia).
        destruct (Z.leb_spec (AnalysisResult.length a - 1) c); [reflexivity|lia].
      - subst c. reflexivity. }
    split; [exact Hcur|].
    assert (Hcur' : currentFrameIndex (state (dispatch TogglePlay w)) = Int 0).
    { unfold dispatch, perform. rewrite settle_cursor. exact Hcur. }
    split; [exact Hcur'|].
    destruct (isPlaying (state (dispatch TogglePlay w))) eqn:Hp; [|reflexivity].
    exfalso.
    assert (Hst' : stable (dispatch TogglePlay w))
      by (apply dispatch_stable; [exact Hst | reflexivity]).
    destruct (stable_playing _ Hst' Hp) as (_ & a & c & Ha & Hc & Hlt).
    rewrite Hcur' in Hc. injection Hc as <-.
    unfold dispatch, perform in Ha. rewrite settle_analysis in Ha. simpl in Ha.
    assert (Ha' : analysis (state w) = Some a).
    { unfold togglePlay in Ha. destruct (ge _ _); exact Ha. }
    specialize (Hshort a Ha'). lia.
Qed.

(** What an event that changes a dependency leaves pending: nothing, or
    one new timeout. *)
Lemma dispatch_changed_timeouts (e : Event) (w : Mounted) :
  stable w -> deliverable (state w) e = true ->
  depsOf (handle e (state w)) <> depsOf (state w) ->
  (forall id, e = Timeout id -> is_Some (timeouts w !! id)) ->
  timeouts (dispatch e w) = ∅ \/
  timeouts (dispatch e w) = {[ nextTimerId w := 1500 ]}.
Proof.
  intros Hst Hdel Hne Hpend. pose proof Hst as (Hd & Hcur & Hids & Ht).
  assert (Hgen : forall w1,
            state w1 = handle e (state w) -> effectDeps w1 = effectDeps w ->
            playbackRef w1 = playbackRef w -> nextTimerId w1 = nextTimerId w ->
            refHoldsPending w1 -> cursorOk (state w1) ->
            timeouts (settle w1) = ∅ \/
            timeouts (settle w1) = {[ nextTimerId w := 1500 ]}).
  { intros w1 Hs He Hr Hn Hp Hc.
    assert (Hids1 : idsOk w1) by (unfold idsOk; rewrite Hr, Hn; exact Hids).
    assert (Hne1 : depsOf (state w) <> depsOf (state w1)) by (rewrite Hs; auto).
    assert (Hd1 : effectDeps w1 = Some (depsOf (state w))) by congruence.
    destruct (advancing_dec (state w1)) as [Hadv|Hnot].
    - rewrite (settle_changed_advancing w1 _ Hd1 Hne1 Hids1 Hp Hadv). simpl.
      right. rewrite Hn. reflexivity.
    - rewrite (settle_changed_stopped w1 _ Hd1 Hne1 Hids1 Hp Hc Hnot). simpl.
      left. reflexivity. }
  assert (Hother : (forall id, e <> Timeout id) ->
            timeouts (settle (withState (handle e (state w)) w)) = ∅ \/
            timeouts (settle (withState (handle e (state w)) w))
              = {[ nextTimerId w := 1500 ]}).
  { intros Hno. apply Hgen; try reflexivity.
    - apply stable_refHoldsPending in Hst. exact Hst.
    - simpl. apply handle_cursorOk; [exact Hcur | exact Hdel |].
      intros id E. destruct (Hno id E). }
  destruct e; try (apply Hother; intros ? ?; discriminate).
  unfold dispatch, perform. destruct (Hpend id eq_refl) as [delay Hl]. rewrite Hl.
  destruct (stable_pending w id delay Hst Hl) as (Hadv & Hr & Hm).
  apply Hgen; try reflexivity.
  - left. simpl. rewrite Hm. apply delete_singleton_eq.
  - simpl. apply (handle_cursorOk (Timeout id)); [exact Hcur | reflexivity |].
    intros ? _. exact Hadv.
Qed.

Lemma dispatch_cursor (e : Event) (w : Mounted) :
  currentFrameIndex (state (dispatch e w)) <> currentFrameIndex (state w) ->
  currentFrameIndex (state (dispatch e w))
    = currentFrameIndex (handle e (state w))
  /\ forall id, e = Timeout id -> is_Some (timeouts w !! id).
Proof.
  intros Hne. destruct e; unfold dispatch, perform in *;
    try (rewrite settle_cursor; split; [reflexivity | intros ? ?; discriminate]).
  destruct (timeouts w !! id) as [delay|] eqn:Hl.
  - rewrite settle_cursor. split; [reflexivity|].
    intros id' [= <-]. rewrite Hl. eauto.
  - contradiction.
Qed.

Lemma refHoldsPending_size (w : Mounted) :
  refHoldsPending w -> (size (timeouts w) <= 1)%nat.
Proof.
  intros [-> | (id & _ & ->)].
  - rewrite map_size_empty. lia.
  - rewrite map_size_singleton. lia.
Qed.

Lemma perform_pending (e : Event) (w w1 : Mounted) :
  stable w -> perform e w = Some w1 ->
  effectDeps w1 = effectDeps w /\ idsOk w1 /\ refHoldsPending w1.
Proof.
  intros Hst Hp. pose proof Hst as (_ & _ & Hids & _).
  assert (Hother : Some (withState (handle e (state w)) w) = Some w1 ->
                   effectDeps w1 = effectDeps w /\ idsOk w1 /\ refHoldsPending w1).
  { intros [= <-]. split; [reflexivity|]. split; [exact Hids|].
    exact (stable_refHoldsPending w Hst). }
  destruct e; try exact (Hother Hp).
  unfold perform in Hp. destruct (timeouts w !! id) as [delay|] eqn:Hl; [|discriminate].
  injection Hp as <-.
  destruct (stable_pending w id delay Hst Hl) as (_ & _ & Hm).
  split; [reflexivity|]. split; [exact Hids|].
  left. simpl. rewrite Hm. apply delete_singleton_eq.
Qed.

Lemma commit_pending (w : Mounted) (d0 : Deps) :
  effectDeps w = Some d0 -> idsOk w -> refHoldsPending w ->
  (size (timeouts (playbackCleanup w)) <= 1)%nat /\
  (size (timeouts (commit w)) <= 1)%nat.
Proof.
  intros Hd Hids Hp. split.
  - rewrite (playbackCleanup_clears w Hids Hp). simpl.
    rewrite map_size_empty. lia.
  - destruct (decide (d0 = depsOf (state w))) as [->|Hne].
    + rewrite (commit_same w Hd). apply refHoldsPending_size. exact Hp.
    + rewrite (commit_changed w d0 Hd Hne Hids Hp).
      unfold playbackEffect. simpl. destruct (_ && _); simpl.
      * rewrite insert_empty, map_size_singleton. lia.
      * destruct (ge _ _); simpl; rewrite map_size_empty; lia.
Qed.

(** C5. In every state the mounted component can be in between two events:
    at most one timeout is pending; while playing with the cursor not at
    the last index exactly one timeout is pending, of 1500 milliseconds,
    and when it fires the cursor advances by exactly one, playback stops if
    that is the last index and otherwise one new timeout of 1500
    milliseconds is pending; an event that changes the cursor leaves no
    timeout pending that was pending before it; and at most one timeout is
    pending at every point in between: after the handler, after the
    cleanup, after each commit. (The delay is the one handed to
    [setTimeout]; the passing of time itself is the firing of the
    timeout.) *)
Theorem C5_automatic_advancement (w : Mounted) :
  reachable w ->
  (size (timeouts w) <= 1)%nat
  /\ (forall a c,
        isPlaying (state w) = true -> analysis (state w) = Some a ->
        currentFrameIndex (state w) = Int c -> c <> AnalysisResult.length a - 1 ->
        exists id,
          timeouts w = {[ id := 1500 ]} /\
          let w' := dispatch (Timeout id) w in
          currentFrameIndex (state w') = Int (c + 1) /\
          (c + 1 = AnalysisResult.length a - 1 ->
             isPlaying (state w') = false /\ timeouts w' = ∅) /\
          (c + 1 <> AnalysisResult.length a - 1 ->
             isPlaying (state w') = true /\
             exists id', id' <> id /\ timeouts w' = {[ id' := 1500 ]}))
  /\ (forall e id,
        deliverable (state w) e = true -> is_Some (timeouts w !! id) ->
        currentFrameIndex (state (dispatch e w)) <> currentFrameIndex (state w) ->
        timeouts (dispatch e w) !! id = None)
  /\ (forall e w1,
        deliverable (state w) e = true -> perform e w = Some w1 ->
        (size (timeouts w1) <= 1)%nat /\
        (size (timeouts (playbackCleanup w1)) <= 1)%nat /\
        (size (timeouts (commit w1)) <= 1)%nat /\
        (size (timeouts (commit (commit w1))) <= 1)%nat).
Proof.
  intros Hr. pose proof (reachable_stable w Hr) as Hst.
  pose proof Hst as (Hd & Hcur & Hids & Ht). split; [|split; [|split]].
  - unfold timerOk in Ht. destruct (isPlaying (state w)).
    + destruct Ht as (a & c & id & _ & _ & _ & _ & ->).
      rewrite map_size_singleton. lia.
    + rewrite Ht, map_size_empty. lia.
  - intros a c Hp Ha Hc Hnotlast.
    unfold timerOk in Ht. rewrite Hp in Ht.
    destruct Ht as (a' & c' & id & Ha' & Hc' & Hlt & Href & Hm).
    rewrite Ha in Ha'. injection Ha' as <-. rewrite Hc in Hc'. injection Hc' as <-.
    exists id. split; [exact Hm|]. unfold dispatch, perform.
    rewrite Hm, lookup_singleton_eq, delete_singleton_eq.
    set (w1 := mkMounted _ _ _ _ _).
    assert (Hs1 : state w1
                  = setCurrentFrameIndex (Int (c + 1)) (state w))
      by (simpl; rewrite Hc; reflexivity).
    assert (Hd1 : effectDeps w1 = Some (depsOf (state w))) by exact Hd.
    assert (Hne1 : depsOf (state w) <> depsOf (state w1)).
    { rewrite Hs1. unfold depsOf. simpl. rewrite Hc. intros E.
      injection E; intros; lia. }
    assert (Hids1 : idsOk w1) by exact Hids.
    assert (Hp1 : refHoldsPending w1) by (left; reflexivity).
    assert (Hcur1 : cursorOk (state w1)).
    { rewrite Hs1. exists (c + 1). simpl. rewrite Ha.
      destruct Hcur as (c' & Hc' & H0 & _). rewrite Hc in Hc'.
      injection Hc' as <-. repeat split; lia. }
    rewrite settle_cursor.
    split; [exact (f_equal currentFrameIndex Hs1)|]. split.
    + intros Hlast.
      assert (Hnot : ~ advancing (state w1)).
      { rewrite Hs1. intros (_ & a' & c' & Ea & Ec & Hlt').
        simpl in Ea, Ec. rewrite Ha in Ea. injection Ea as <-.
        injection Ec as <-. lia. }
      rewrite (settle_changed_stopped w1 _ Hd1 Hne1 Hids1 Hp1 Hcur1 Hnot).
      split; reflexivity.
    + intros Hmore.
      assert (Hadv : advancing (state w1)).
      { rewrite Hs1. split; [exact Hp|]. exists a, (c + 1). simpl.
        repeat split; [exact Ha | lia]. }
      rewrite (settle_changed_advancing w1 _ Hd1 Hne1 Hids1 Hp1 Hadv).
      simpl. split; [exact Hp|].
      exists (nextTimerId w). split; [|reflexivity].
      destruct Hids as [_ Hid]. specialize (Hid id Href). lia.
  - intros e id Hdel [delay Hl] Hchg.
    destruct (stable_pending w id delay Hst Hl) as (_ & Href & _).
    destruct (dispatch_cursor e w Hchg) as [Ecur Hpend].
    assert (Hne : depsOf (handle e (state w)) <> depsOf (state w)).
    { unfold depsOf. intros E. injection E as _ E _. congruence. }
    destruct (dispatch_changed_timeouts e w Hst Hdel Hne Hpend) as [E|E];
      rewrite E.
    + apply lookup_empty.
    + apply lookup_singleton_ne. destruct Hids as [_ Hid].
      specialize (Hid id Href). lia.
  - intros e w1 Hdel Hperf.
    destruct (perform_pending e w w1 Hst Hperf) as (Hd1 & Hids1 & Hp1).
    rewrite Hd in Hd1.
    destruct (commit_pending w1 _ Hd1 Hids1 Hp1) as [Hclean Hcommit].
    split; [apply refHoldsPending_size; exact Hp1|].
    split; [exact Hclean|]. split; [exact Hcommit|].
    assert (Hst' : stable (dispatch e w)) by (apply dispatch_stable; assumption).
    unfold dispatch in Hst'. rewrite Hperf in Hst'.
    apply refHoldsPending_size, stable_refHoldsPending. exact Hst'.
Qed.

Lemma apply_within (o : Op) (s : State) (a : AnalysisResult.t) :
  analysis s = Some a ->
  cursorWithin (AnalysisResult.length a) s ->
  seekWithin (AnalysisResult.length a) o ->
  analysis (apply o s) = Some a /\
  cursorWithin (AnalysisResult.length a) (apply o s).
Proof.
  intros Ha (c & Hc & Hrange) Hseek. destruct o as [| |[z|]]; simpl in *.
  - unfold handleNext. rewrite Ha, Hc. simpl.
    destruct (Z.ltb_spec c (AnalysisResult.length a - 1)); simpl.
    + split; [exact Ha|]. exists (c + 1). split; [reflexivity | lia].
    + split; [exact Ha|]. exists c. split; [exact Hc | lia].
  - unfold handlePrev, gt. rewrite Hc. simpl.
    destruct (Z.ltb_spec 0 c); simpl.
    + split; [exact Ha|]. exists (c - 1). split; [reflexivity | lia].
    + split; [exact Ha|]. exists c. split; [exact Hc | lia].
  - split; [exact Ha|]. exists z. split; [reflexivity | exact Hseek].
  - contradiction.
Qed.

(** C1, amended. With a non-empty sequence loaded and the cursor on one of
    its frames, every sequence of [stepForward], [stepBackward] and [seek]
    calls whose seek indices lie in [0 .. length-1] (what the range slider
    delivers) leaves the cursor in [0 .. length-1]; the handlers are total,
    none throws. [seek] stores the index it is given and does not clamp. *)
Theorem C1_cursor_stays_within (s : State) (a : AnalysisResult.t) (os : list Op) :
  analysis s = Some a -> 0 < AnalysisResult.length a ->
  cursorWithin (AnalysisResult.length a) s ->
  Forall (seekWithin (AnalysisResult.length a)) os ->
  cursorWithin (AnalysisResult.length a) (applyAll os s)
  /\ analysis (applyAll os s) = Some a
  /\ forall v, currentFrameIndex (handleSliderChange v s) = v.
Proof.
  intros Ha _ Hcur Hall. split; [|split; [|reflexivity]];
    revert s Ha Hcur; induction Hall as [|o os Ho _ IH]; intros s Ha Hcur;
    simpl; try assumption;
    destruct (apply_within o s a Ha Hcur Ho) as [Ha' Hcur'];
    apply IH; assumption.
Qed.

(** C10. With source code that is empty or only white space, a run makes
    no call to [analyzeCode] and returns the state it was given, whatever
    the call would have answered; on the mounted component the click leaves
    the state, the ref, the timeouts and the effect untouched. *)
Theorem C10_blank_run_is_noop (s : State) (o : Settled) :
  forallb isWhiteSpace (code s) = true ->
  handleRun_begin s = (s, None)
  /\ handleRun o s = s
  /\ forall w, reachable w -> state w = s -> dispatch RunClick w = w.
Proof.
  intros Hblank. pose proof (handleRun_begin_blank s Hblank) as Hb.
  split; [exact Hb|]. split.
  - unfold handleRun. rewrite Hb. reflexivity.
  - intros w Hr <-. unfold dispatch, perform, handle. rewrite Hb. simpl.
    rewrite withState_state.
    apply settle_same. apply reachable_stable in Hr. apply Hr.
Qed.

Lemma settle_isPlaying (w : Mounted) :
  isPlaying (state (settle w)) = true -> isPlaying (state w) = true.
Proof. destruct (state_settle w) as [E|E]; rewrite E; [auto | discriminate]. Qed.

(** After an event whose handler leaves playback off and the cursor at 0:
    the component is at frame 0, not playing, with no timeout pending. *)
Lemma dispatch_rest (e : Event) (w : Mounted) :
  stable w -> deliverable (state w) e = true -> (forall id, e <> Timeout id) ->
  isPlaying (handle e (state w)) = false ->
  state (dispatch e w) = handle e (state w) /\ timeouts (dispatch e w) = ∅.
Proof.
  intros Hst Hdel Hno Hp.
  assert (E : dispatch e w = settle (withState (handle e (state w)) w))
    by (destruct e; try reflexivity; destruct (Hno id eq_refl)).
  rewrite E.
  assert (Hst' : stable (dispatch e w)) by (apply dispatch_stable; assumption).
  rewrite E in Hst'.
  assert (Hp' : isPlaying (state (settle (withState (handle e (state w)) w))) = false).
  { destruct (isPlaying (state (settle _))) eqn:Hq; [|reflexivity].
    apply settle_isPlaying in Hq. simpl in Hq. congruence. }
  split.
  - destruct (state_settle (withState (handle e (state w)) w)) as [Es|Es];
      rewrite Es; simpl; [reflexivity|].
    apply setIsPlaying_same. exact Hp.
  - destruct Hst' as (_ & _ & _ & Ht). unfold timerOk in Ht.
    rewrite Hp' in Ht. exact Ht.
Qed.

(** A language switch on the mounted component, from any editor: the
    handler's state, and no timeout left pending. *)
Lemma modeChange_mounted (w : Mounted) (m : EditorMode) :
  reachable w ->
  state (dispatch (ModeChange m) w) = handleModeChange m (state w) /\
  timeouts (dispatch (ModeChange m) w) = ∅.
Proof.
  intros Hr.
  apply (dispatch_rest (ModeChange m) w (reachable_stable w Hr) eq_refl).
  - intros id; discriminate.
  - reflexivity.
Qed.

(** A run that loads a result, and a language switch, on the mounted
    component: the handlers' state, and no timeout left pending. *)
Lemma load_mounted (w : Mounted) (result : AnalysisResult.t) (m : EditorMode) :
  reachable w -> truthy (trim (code (state w))) = true ->
  (state (dispatch (RunSettled (Fulfilled result)) (dispatch RunClick w))
     = handleRun (Fulfilled result) (state w) /\
   timeouts (dispatch (RunSettled (Fulfilled result)) (dispatch RunClick w)) = ∅)
  /\ (state (dispatch (ModeChange m) w) = handleModeChange m (state w) /\
      timeouts (dispatch (ModeChange m) w) = ∅).
Proof.
  intros Hr Hcode. pose proof (reachable_stable w Hr) as Hst.
  assert (Hb : handle RunClick (state w)
               = setIsPlaying false
                   (setCurrentFrameIndex (Int 0)
                     (setAnalysis None (setError None (setLoading true (state w))))))
    by (unfold handle; rewrite (handleRun_begin_calls _ Hcode); reflexivity).
  split.
  - destruct (dispatch_rest RunClick w Hst eq_refl) as [Es Et].
    { intros id; discriminate. }
    { rewrite Hb. reflexivity. }
    assert (Hst1 : stable (dispatch RunClick w))
      by (apply dispatch_stable; [exact Hst | reflexivity]).
    destruct (dispatch_rest (RunSettled (Fulfilled result)) (dispatch RunClick w)
                Hst1 eq_refl) as [Es' Et'].
    { intros id; discriminate. }
    { rewrite Es, Hb. unfold handle, handleRun_resume, handleRun_fulfilled.
      destruct (0 <? _); reflexivity. }
    split; [|exact Et'].
    rewrite Es', Es, Hb. unfold handleRun.
    rewrite (handleRun_begin_calls _ Hcode). reflexivity.
  - apply (dispatch_rest (ModeChange m) w Hst eq_refl).
    + intros id; discriminate.
    + reflexivity.
Qed.

(** Play pressed at the last of several frames: playback is on again at
    frame 0, with its timeout pending. *)
Lemma togglePlay_at_last_mounted (w : Mounted) (a : AnalysisResult.t) :
  reachable w -> analysis (state w) = Some a -> 1 < AnalysisResult.length a ->
  currentFrameIndex (state w) = Int (AnalysisResult.length a - 1) ->
  currentFrameIndex (state (dispatch TogglePlay w)) = Int 0 /\
  isPlaying (state (dispatch TogglePlay w)) = true /\
  exists id, timeouts (dispatch TogglePlay w) = {[ id := 1500 ]}.
Proof.
  intros Hr Ha Hlen Hc. pose proof (reachable_stable w Hr) as Hst.
  pose proof Hst as (Hd & Hcur & Hids & Ht).
  assert (Hp : isPlaying (state w) = false).
  { destruct (isPlaying (state w)) eqn:Hp; [|reflexivity].
    destruct (stable_playing w Hst Hp) as (_ & a' & c & Ha' & Hc' & Hlt).
    rewrite Ha in Ha'. injection Ha' as <-. rewrite Hc in Hc'.
    injection Hc' as <-. lia. }
  assert (Etp : togglePlay (state w)
                = setIsPlaying true (setCurrentFrameIndex (Int 0) (state w))).
  { unfold togglePlay, framesLength. rewrite Ha, Hc, Hp. simpl.
    rewrite Z.leb_refl. reflexivity. }
  unfold dispatch, perform, handle. rewrite Etp.
  set (w1 := withState _ w).
  assert (Hadv : advancing (state w1)).
  { split; [reflexivity|]. exists a, 0. simpl. repeat split; [exact Ha | lia]. }
  assert (Hne : depsOf (state w) <> depsOf (state w1)).
  { unfold depsOf. simpl. rewrite Hp. intros E. discriminate. }
  rewrite (settle_changed_advancing w1 (depsOf (state w)) Hd Hne Hids
             (stable_refHoldsPending w Hst) Hadv).
  simpl. repeat split. eauto.
Qed.

(** C6. With a non-empty sequence and the cursor on one of its frames,
    [togglePlay] at the last frame sets the cursor to [0] and flips
    [isPlaying]; at any other frame it flips [isPlaying] and leaves the
    cursor (and everything else) alone. On the mounted component, play
    pressed at the last of several frames leaves playback on at frame [0]
    with its timeout pending. *)
Theorem C6_togglePlay (s : State) (a : AnalysisResult.t) (c : Z) :
  analysis s = Some a -> 0 < AnalysisResult.length a ->
  currentFrameIndex s = Int c -> 0 <= c <= AnalysisResult.length a - 1 ->
  (c = AnalysisResult.length a - 1 ->
     togglePlay s
       = setIsPlaying (negb (isPlaying s)) (setCurrentFrameIndex (Int 0) s))
  /\ (c <> AnalysisResult.length a - 1 ->
     togglePlay s = setIsPlaying (negb (isPlaying s)) s)
  /\ (forall w,
        reachable w -> state w = s ->
        c = AnalysisResult.length a - 1 -> 1 < AnalysisResult.length a ->
        currentFrameIndex (state (dispatch TogglePlay w)) = Int 0 /\
        isPlaying (state (dispatch TogglePlay w)) = true /\
        exists id, timeouts (dispatch TogglePlay w) = {[ id := 1500 ]}).
Proof.
  intros Ha Hlen Hc Hrange. split; [|split].
  - intros ->. unfold togglePlay, framesLength. rewrite Ha, Hc. simpl.
    rewrite Z.leb_refl. reflexivity.
  - intros Hne. unfold togglePlay, framesLength. rewrite Ha, Hc. simpl.
    destruct (Z.leb_spec (AnalysisResult.length a - 1) c); [lia | reflexivity].
  - intros w Hr <- -> Hseveral.
    apply (togglePlay_at_last_mounted w a Hr Ha Hseveral Hc).
Qed.

(** Three frames: play pressed at frame 2 restarts at frame 0; play pressed
    at frame 1 stays at frame 1. *)
Lemma C6_togglePlay_witness :
  togglePlay (Sample.showing (Some Sample.three) (Int 2) false)
    = Sample.showing (Some Sample.three) (Int 0) true
  /\ togglePlay (Sample.showing (Some Sample.three) (Int 1) false)
    = Sample.showing (Some Sample.three) (Int 1) true.
Proof.
  split.
  - destruct (C6_togglePlay (Sample.showing (Some Sample.three) (Int 2) false)
                Sample.three 2) as (H & _);
      [reflexivity | reflexivity | reflexivity | vm_compute; split; discriminate |].
    rewrite H; reflexivity.
  - destruct (C6_togglePlay (Sample.showing (Some Sample.three) (Int 1) false)
                Sample.three 1) as (_ & H & _);
      [reflexivity | reflexivity | reflexivity | vm_compute; split; discriminate |].
    rewrite H; [reflexivity | vm_compute; discriminate].
Defined.

(** C8. Whatever the state before (cursor, playing or not, an earlier
    analysis or none), a run that loads [result] ends with the cursor at
    [0], not playing, [result] as the analysis and no error, and a language
    switch ends with the cursor at [0], not playing and no analysis. A
    result with no frames is loaded like any other, and there is then no
    current frame. On the mounted component both end in that state with no
    timeout pending. A run calls the service, and so loads anything, only
    when the editor is not blank: that is the one condition, and it is on
    the run alone. The language switch never reads the editor, and its two
    parts hold from every state, a blank editor included. *)
Theorem C8_load_resets (s : State) (result : AnalysisResult.t) (m : EditorMode) :
  (truthy (trim (code s)) = true ->
   (let s' := handleRun (Fulfilled result) s in
    currentFrameIndex s' = Int 0 /\ isPlaying s' = false /\
    analysis s' = Some result /\ error s' = None /\ loading s' = false /\
    (AnalysisResult.frames result = [] -> currentFrame s' = None))
   /\ (forall w,
         reachable w -> state w = s ->
         state (dispatch (RunSettled (Fulfilled result)) (dispatch RunClick w))
           = handleRun (Fulfilled result) s /\
         timeouts (dispatch (RunSettled (Fulfilled result)) (dispatch RunClick w)) = ∅))
  /\ (let s' := handleModeChange m s in
      currentFrameIndex s' = Int 0 /\ isPlaying s' = false /\
      analysis s' = None /\ currentFrame s' = None)
  /\ (forall w,
        reachable w -> state w = s ->
        state (dispatch (ModeChange m) w) = handleModeChange m s /\
        timeouts (dispatch (ModeChange m) w) = ∅).
Proof.
  split; [|split].
  - intros Hcode. split.
    + unfold handleRun. rewrite (handleRun_begin_calls s Hcode). simpl.
      unfold handleRun_fulfilled, currentFrame.
      destruct (0 <? AnalysisResult.length result) eqn:Hlen; simpl;
        rewrite ?Hlen; repeat split; try reflexivity.
      intros Hnil. unfold AnalysisResult.length in Hlen. rewrite Hnil in Hlen.
      discriminate.
    + intros w Hr <-. apply (load_mounted w result m Hr Hcode).
  - simpl. repeat split.
  - intros w Hr <-. apply (modeChange_mounted w m Hr).
Qed.

(** From frame 2 of three frames, playing: loading the empty result, and
    switching to Java; and switching to Java from a blank editor, on the
    mounted component. *)
Lemma C8_load_resets_witness :
  (let s' := handleRun (Fulfilled Sample.none)
               (Sample.showing (Some Sample.three) (Int 2) true) in
   currentFrameIndex s' = Int 0 /\ isPlaying s' = false /\
   analysis s' = Some Sample.none /\ error s' = None /\ loading s' = false /\
   (AnalysisResult.frames Sample.none = [] -> currentFrame s' = None))
  /\ (let s' := handleModeChange JAVA
                  (Sample.showing (Some Sample.three) (Int 2) true) in
      currentFrameIndex s' = Int 0 /\ isPlaying s' = false /\
      analysis s' = None /\ currentFrame s' = None)
  /\ truthy (trim (code (state Sample.blanked))) = false
  /\ state (dispatch (ModeChange JAVA) Sample.blanked)
       = handleModeChange JAVA (state Sample.blanked)
  /\ timeouts (dispatch (ModeChange JAVA) Sample.blanked) = ∅.
Proof.
  destruct (C8_load_resets (Sample.showing (Some Sample.three) (Int 2) true)
              Sample.none JAVA) as (H1 & H2 & _).
  destruct (H1 ltac:(vm_compute; reflexivity)) as [H1' _].
  destruct (C8_load_resets (state Sample.blanked) Sample.none JAVA)
    as (_ & _ & H3).
  assert (Hb : reachable Sample.blanked).
  { unfold Sample.blanked. apply reachable_dispatch; [|reflexivity].
    apply reachable_mount. }
  destruct (H3 Sample.blanked Hb eq_refl) as [H3s H3t].
  split; [exact H1'|]. split; [exact H2|].
  split; [vm_compute; reflexivity|]. split; [exact H3s | exact H3t].
Defined.

(** ** Witnesses on the sample component *)

Lemma reachable_loaded : reachable Sample.loaded.
Proof.
  unfold Sample.loaded.
  apply reachable_dispatch; [|reflexivity].
  apply reachable_dispatch; [|reflexivity].
  apply reachable_mount.
Qed.

Lemma reachable_playing : reachable Sample.playing.
Proof.
  unfold Sample.playing.
  apply reachable_dispatch; [|reflexivity]. exact reachable_loaded.
Qed.

Lemma reachable_loadedOne : reachable Sample.loadedOne.
Proof.
  unfold Sample.loadedOne.
  apply reachable_dispatch; [|reflexivity].
  apply reachable_dispatch; [|reflexivity].
  apply reachable_mount.
Qed.

Lemma reachable_blanked : reachable Sample.blanked.
Proof.
  unfold Sample.blanked.
  apply reachable_dispatch; [|reflexivity]. apply reachable_mount.
Qed.

(** Playing three frames from frame 0: one timeout is pending; when it
    fires the cursor is 1 and a new timeout is pending. *)
Lemma C5_automatic_advancement_witness :
  (size (timeouts Sample.playing) <= 1)%nat /\
  exists id,
    timeouts Sample.playing = {[ id := 1500 ]} /\
    currentFrameIndex (state (dispatch (Timeout id) Sample.playing)) = Int 1 /\
    isPlaying (state (dispatch (Timeout id) Sample.playing)) = true.
Proof.
  destruct (C5_automatic_advancement Sample.playing reachable_playing)
    as (Hsize & Hfire & _ & _).
  split; [exact Hsize|].
  destruct (Hfire Sample.three 0) as (id & Hm & Hcur & _ & Hmore);
    [reflexivity | reflexivity | reflexivity | vm_compute; discriminate |].
  exists id. split; [exact Hm|]. split; [exact Hcur|].
  apply Hmore. vm_compute. discriminate.
Defined.

(** After mounting, with no analysis, and with a single frame loaded: play
    pressed leaves the cursor at 0 and playback off. While three frames
    play from frame 0, the cursor is below the last index. *)
Lemma C9_playing_only_below_last_witness :
  (currentFrameIndex (state (dispatch TogglePlay mount)) = Int 0 /\
   isPlaying (state (dispatch TogglePlay mount)) = false)
  /\ (currentFrameIndex (state (dispatch TogglePlay Sample.loadedOne)) = Int 0 /\
      isPlaying (state (dispatch TogglePlay Sample.loadedOne)) = false)
  /\ exists a c,
       analysis (state Sample.playing) = Some a /\
       currentFrameIndex (state Sample.playing) = Int c /\
       0 <= c < AnalysisResult.length a - 1.
Proof.
  split; [|split].
  - destruct (C9_playing_only_below_last mount reachable_mount) as (_ & H).
    destruct H as (_ & Hc & Hp); [intros a Ha; discriminate|].
    split; assumption.
  - destruct (C9_playing_only_below_last Sample.loadedOne reachable_loadedOne)
      as (_ & H).
    destruct H as (_ & Hc & Hp).
    { intros a Ha. vm_compute in Ha. injection Ha as <-. vm_compute. discriminate. }
    split; assumption.
  - destruct (C9_playing_only_below_last Sample.playing reachable_playing)
      as (H & _).
    destruct H as (a & c & Ha & _ & Hc & Hlt); [reflexivity|].
    exists a, c. auto.
Defined.

(** From frame 1 of three frames: forward, forward, forward, back, seek 0,
    seek 2. *)
Lemma C1_cursor_stays_within_witness :
  cursorWithin 3
    (applyAll [stepForward; stepForward; stepForward; stepBackward;
               seek (Int 0); seek (Int 2)]
       (Sample.showing (Some Sample.three) (Int 1) true)).
Proof.
  apply (C1_cursor_stays_within
           (Sample.showing (Some Sample.three) (Int 1) true) Sample.three).
  - reflexivity.
  - reflexivity.
  - exists 1. split; [reflexivity | vm_compute; split; discriminate].
  - repeat constructor; vm_compute; discriminate.
Defined.

(** C1, as the claim states it, fails: on three frames a seek to 7, and a
    seek to -1, leave the cursor at 7 and at -1, outside [0 .. 2]. *)
Lemma C1_seek_does_not_clamp :
  let s := Sample.showing (Some Sample.three) (Int 0) false in
  currentFrameIndex (applyAll [seek (Int 7)] s) = Int 7 /\
  currentFrameIndex (applyAll [seek (Int (-1))] s) = Int (-1) /\
  ~ cursorWithin (AnalysisResult.length Sample.three) (applyAll [seek (Int 7)] s) /\
  ~ cursorWithin (AnalysisResult.length Sample.three) (applyAll [seek (Int (-1))] s).
Proof.
  simpl. repeat split; intros (c & Hc & Hr);
    injection Hc as <-; vm_compute in Hr; destruct Hr as [H0 H1];
    [apply H1 | apply H0]; reflexivity.
Qed.

(** The editor holds white space only: the click changes nothing. *)
Lemma C10_blank_run_is_noop_witness :
  handleRun_begin (state Sample.blanked) = (state Sample.blanked, None) /\
  handleRun Rejected (state Sample.blanked) = state Sample.blanked /\
  dispatch RunClick Sample.blanked = Sample.blanked.
Proof.
  destruct (C10_blank_run_is_noop (state Sample.blanked) Rejected)
    as (H1 & H2 & H3); [reflexivity|].
  split; [exact H1|]. split; [exact H2|].
  apply H3; [exact reachable_blanked | reflexivity].
Defined.

(** ** The analysis call *)

Lemma analyzeCode_throws_iff
    (ai : GenerateContentParameters -> GenerateContentOutcome)
    (code mode : jsstring) (message : jsstring) :
  analyzeCode ai code mode = Throw message <->
  message = lit "Failed to analyze code execution." /\
  (ai (request code mode) = Failure \/
   exists text, ai (request code mode) = Response text /\
                JSON_parse (textOrEmptyObject text) = None).
Proof.
  unfold analyzeCode. destruct (ai (request code mode)) as [|text].
  - split.
    + intros [= <-]. split; [reflexivity | left; reflexivity].
    + intros [-> _]. reflexivity.
  - destruct (JSON_parse (textOrEmptyObject text)) as [v|] eqn:E.
    + split; [discriminate|].
      intros [_ [H | (t & [= <-] & H)]]; [discriminate | congruence].
    + split.
      * intros [= <-]. split; [reflexivity|]. right. eauto.
      * intros [-> _]. reflexivity.
Qed.

Lemma analyzeCode_returns_iff
    (ai : GenerateContentParameters -> GenerateContentOutcome)
    (code mode : jsstring) (v : JsValue) :
  analyzeCode ai code mode = Return v <->
  exists text, ai (request code mode) = Response text /\
               JSON_parse (textOrEmptyObject text) = Some v.
Proof.
  unfold analyzeCode. destruct (ai (request code mode)) as [|text].
  - split; [discriminate | intros (t & H & _); discriminate].
  - destruct (JSON_parse (textOrEmptyObject text)) as [v'|] eqn:E.
    + split.
      * intros [= <-]. eauto.
      * intros (t & [= <-] & H). congruence.
    + split; [discriminate|]. intros (t & [= <-] & H). congruence.
Qed.

(** C4, amended. The analysis call returns the parsed response or throws
    the one error "Failed to analyze code execution."; it throws exactly
    when the request fails or the response text is not JSON, and returns
    exactly the value the text parses to, whatever its shape: nothing
    checks the value against the schema, and a missing or empty text is
    read as the empty object. *)
Theorem C4_analyzeCode_outcomes
    (ai : GenerateContentParameters -> GenerateContentOutcome)
    (code mode : jsstring) :
  ((exists v, analyzeCode ai code mode = Return v) \/
   analyzeCode ai code mode = Throw (lit "Failed to analyze code execution."))
  /\ (analyzeCode ai code mode = Throw (lit "Failed to analyze code execution.")
      <-> (ai (request code mode) = Failure \/
           exists text, ai (request code mode) = Response text /\
                        JSON_parse (textOrEmptyObject text) = None))
  /\ (forall v,
        analyzeCode ai code mode = Return v <->
        exists text, ai (request code mode) = Response text /\
                     JSON_parse (textOrEmptyObject text) = Some v)
  /\ (ai (request code mode) = Response None \/
      ai (request code mode) = Response (Some []) ->
      analyzeCode ai code mode = Return (JObject [])).
Proof.
  split; [|split; [|split]].
  - destruct (analyzeCode ai code mode) as [v|message] eqn:E.
    + left. eauto.
    + right. apply analyzeCode_throws_iff in E as [-> _]. reflexivity.
  - rewrite analyzeCode_throws_iff. tauto.
  - intros v. apply analyzeCode_returns_iff.
  - intros [H|H]; apply analyzeCode_returns_iff; eexists; split;
      try exact H; reflexivity.
Qed.

(** A response that conforms to the schema is returned as the value it
    parses to; a response that is not JSON makes the call throw. *)
Lemma C4_analyzeCode_outcomes_witness :
  (exists v,
     analyzeCode (Sample.answering (Some Sample.responseText))
       (lit "head = Node(1)") (lit "python") = Return v /\
     conforms ANALYSIS_SCHEMA v = true)
  /\ analyzeCode (Sample.answering (Some (lit "{frames")))
       (lit "head = Node(1)") (lit "python")
     = Throw (lit "Failed to analyze code execution.").
Proof.
  split.
  - destruct (JSON_parse Sample.responseText) as [v|] eqn:E;
      [|vm_compute in E; discriminate].
    exists v. split.
    + apply (C4_analyzeCode_outcomes (Sample.answering (Some Sample.responseText))).
      exists (Some Sample.responseText). split; [reflexivity | exact E].
    + vm_compute in E. injection E as <-. vm_compute. reflexivity.
  - apply (C4_analyzeCode_outcomes (Sample.answering (Some (lit "{frames")))).
    right. exists (Some (lit "{frames")). split; [reflexivity|].
    vm_compute. reflexivity.
Defined.

(** C4, as the claim states it, fails: a response with no text, and a
    response whose JSON has no frame list, are returned as values although
    they do not conform to the schema. *)
Lemma C4_malformed_response_is_returned :
  analyzeCode (Sample.answering None) (lit "head = Node(1)") (lit "python")
    = Return (JObject [])
  /\ getProp (lit "frames") (JObject []) = None
  /\ conforms ANALYSIS_SCHEMA (JObject []) = false
  /\ exists v,
       analyzeCode (Sample.answering (Some Sample.responseWithoutFrames))
         (lit "head = Node(1)") (lit "python") = Return v /\
       getProp (lit "frames") v = None /\
       conforms ANALYSIS_SCHEMA v = false.
Proof.
  split; [reflexivity|]. split; [reflexivity|]. split; [reflexivity|].
  eexists. split; [vm_compute; reflexivity|]. split; reflexivity.
Qed.

(** C2, amended. When the analysis call fails (the request is rejected or
    the response is not JSON, so that [analyzeCode] throws), the run ends
    with the one error message set and the loading flag cleared, and with
    no analysis loaded: the analysis loaded before the run was cleared when
    the run began and is not put back; the cursor is [0] and playback is
    off. Language and source code are as before. *)
Theorem C2_failed_run
    (ai : GenerateContentParameters -> GenerateContentOutcome) (s : State) :
  truthy (trim (code s)) = true ->
  (ai (request (code s) (EditorMode_value (mode s))) = Failure \/
   exists text,
     ai (request (code s) (EditorMode_value (mode s))) = Response text /\
     JSON_parse (textOrEmptyObject text) = None) ->
  analyzeCode ai (code s) (EditorMode_value (mode s))
    = Throw (lit "Failed to analyze code execution.")
  /\ let s' := handleRun Rejected s in
     error s' = Some (lit "Analysis failed. Please try again or check your API key.")
     /\ loading s' = false
     /\ analysis s' = None
     /\ currentFrame s' = None
     /\ currentFrameIndex s' = Int 0
     /\ isPlaying s' = false
     /\ mode s' = mode s /\ code s' = code s.
Proof.
  intros Hcode Hfail. split.
  - apply analyzeCode_throws_iff. split; [reflexivity | exact Hfail].
  - unfold handleRun. rewrite (handleRun_begin_calls s Hcode). simpl.
    repeat split.
Qed.

(** A rejected request while frame 1 of three frames is shown. *)
Lemma C2_failed_run_witness :
  let s := Sample.showing (Some Sample.three) (Int 1) true in
  error (handleRun Rejected s)
    = Some (lit "Analysis failed. Please try again or check your API key.")
  /\ analysis (handleRun Rejected s) = None
  /\ loading (handleRun Rejected s) = false.
Proof.
  destruct (C2_failed_run (fun _ => Failure)
              (Sample.showing (Some Sample.three) (Int 1) true))
    as (_ & He & Hl & Ha & _).
  - vm_compute. reflexivity.
  - left. reflexivity.
  - simpl. repeat split; assumption.
Defined.

(** ** More on the component and the page *)

Import PageInvariant.

Lemma index_within {A : Type} (l : list A) (c : Z) :
  0 <= c < Z.of_nat (length l) ->
  exists x, App.index l (Int c) = Some x /\ nth_error l (Z.to_nat c) = Some x.
Proof.
  intros Hc. unfold App.index.
  destruct (Z.ltb_spec c 0); [lia|].
  destruct (nth_error l (Z.to_nat c)) as [x|] eqn:E; [eauto|].
  apply nth_error_None in E. lia.
Qed.

(** X1. Whenever an analysis with frames is loaded, in any state the
    mounted component can reach, the cursor indexes one of its frames: the
    current frame is that frame (never [undefined]), the step counter
    shows a number between 1 and the number of frames, and the visualizer
    gets that frame's nodes and edges. *)
Theorem current_frame_is_defined (w : Mounted) (a : AnalysisResult.t) :
  reachable w -> analysis (state w) = Some a -> 0 < AnalysisResult.length a ->
  exists c f,
    currentFrameIndex (state w) = Int c /\
    1 <= c + 1 <= AnalysisResult.length a /\
    nth_error (AnalysisResult.frames a) (Z.to_nat c) = Some f /\
    currentFrame (state w) = Some f /\
    View.stepCounter (state w) = Some (Int (c + 1), AnalysisResult.length a) /\
    Visualizer.nodes (View.visualizerProps (state w)) = VisualizationFrame.nodes f /\
    Visualizer.edges (View.visualizerProps (state w)) = VisualizationFrame.edges f.
Proof.
  intros Hr Ha Hlen.
  destruct (reachable_stable w Hr) as (_ & (c & Hc & H0 & Hca) & _).
  rewrite Ha in Hca. specialize (Hca Hlen).
  destruct (index_within (AnalysisResult.frames a) c) as (f & Hi & Hn).
  { unfold AnalysisResult.length in *. lia. }
  assert (Hcf : currentFrame (state w) = Some f).
  { unfold currentFrame. rewrite Ha, Hc.
    destruct (Z.ltb_spec 0 (AnalysisResult.length a)); [exact Hi | lia]. }
  exists c, f. split; [exact Hc|]. split; [lia|]. split; [exact Hn|].
  split; [exact Hcf|]. split.
  - unfold View.stepCounter. rewrite Ha, Hc.
    destruct (Z.ltb_spec 0 (AnalysisResult.length a)); [reflexivity | lia].
  - unfold View.visualizerProps. simpl. rewrite Hcf. split; reflexivity.
Qed.

Lemma setCursor_changes (s : State) (v : number) (b : bool) :
  currentFrameIndex s <> v -> setIsPlaying b (setCurrentFrameIndex v s) <> s.
Proof. intros Hne E. apply Hne. rewrite <- E at 1. reflexivity. Qed.

(** X2. While the controls are rendered, the previous button is disabled
    exactly when [handlePrev] would change nothing, and the next button
    exactly when [handleNext] would change nothing. *)
Theorem disabled_buttons_are_the_noops (w : Mounted) (c : View.Controls) :
  reachable w -> View.controls (state w) = Some c ->
  (View.prevDisabled c = true <-> handlePrev (state w) = state w) /\
  (View.nextDisabled c = true <-> handleNext (state w) = state w).
Proof.
  intros Hr Hctl.
  destruct (reachable_stable w Hr) as (_ & (z & Hz & H0 & Hca) & _).
  unfold View.controls in Hctl.
  destruct (analysis (state w)) as [a|] eqn:Ha; [|discriminate].
  destruct (Z.ltb_spec 0 (AnalysisResult.length a)) as [Hlen|]; [|discriminate].
  injection Hctl as <-. simpl. specialize (Hca Hlen). rewrite Hz. simpl. split.
  - destruct (Z.eqb_spec z 0) as [->|Hne].
    + split; [intros _ | reflexivity].
      apply (handlePrev_first _ 0 Hz). lia.
    + split; [discriminate|]. intros E. exfalso.
      rewrite (handlePrev_back _ z Hz) in E by lia.
      apply (setCursor_changes _ _ _) in E; [exact E|]. rewrite Hz.
      intros [= ]. lia.
  - destruct (Z.eqb_spec z (AnalysisResult.length a - 1)) as [->|Hne].
    + split; [intros _ | reflexivity].
      apply (handleNext_last _ a _ Ha Hz). lia.
    + split; [discriminate|]. intros E. exfalso.
      rewrite (handleNext_advance _ a z Ha Hz) in E by lia.
      apply (setCursor_changes _ _ _) in E; [exact E|]. rewrite Hz.
      intros [= ]. lia.
Qed.

(** X3. A step forward followed by a step backward, and a step backward
    followed by a step forward, give back the state, paused: the same
    cursor and every other cell untouched. *)
Theorem steps_undo_each_other (s : State) (a : AnalysisResult.t) (c : Z) :
  analysis s = Some a -> currentFrameIndex s = Int c ->
  (0 <= c < AnalysisResult.length a - 1 ->
   handlePrev (handleNext s) = setIsPlaying false s) /\
  (0 < c <= AnalysisResult.length a - 1 ->
   handleNext (handlePrev s) = setIsPlaying false s).
Proof.
  intros Ha Hc. split; intros Hrange.
  - rewrite (handleNext_advance s a c Ha Hc) by lia.
    rewrite (handlePrev_back _ (c + 1)) by (try reflexivity; lia).
    replace (c + 1 - 1) with c by lia.
    destruct s; simpl in *; subst; reflexivity.
  - rewrite (handlePrev_back s c Hc) by lia.
    rewrite (handleNext_advance _ a (c - 1)) by (try reflexivity; try exact Ha; lia).
    replace (c - 1 + 1) with c by lia.
    destruct s; simpl in *; subst; reflexivity.
Qed.

(** X4. Editing the source code and toggling the theme change only their
    own cell: the effect does not run again, so the cursor, playback, the
    ref and the pending timeout are as before. *)
Theorem edits_leave_playback_alone (w : Mounted) (text : jsstring) :
  reachable w ->
  dispatch (CodeChange text) w = withState (setCode text (state w)) w /\
  dispatch ThemeToggle w
    = withState (setIsDarkMode (negb (isDarkMode (state w))) (state w)) w.
Proof.
  intros Hr. destruct (reachable_stable w Hr) as (Hd & _).
  split; unfold dispatch, perform, handle; apply settle_same; exact Hd.
Qed.

Lemma elapse_idle (w : Mounted) :
  stable w -> isPlaying (state w) = false -> Page.elapse w = w.
Proof.
  intros (_ & _ & _ & Ht) Hp. unfold timerOk in Ht. rewrite Hp in Ht.
  unfold Page.elapse. destruct (playbackRef w) as [id|]; [|reflexivity].
  unfold dispatch, perform. rewrite Ht, lookup_empty. reflexivity.
Qed.

Lemma elapse_playing (w : Mounted) (a : AnalysisResult.t) (c : Z) :
  stable w -> isPlaying (state w) = true ->
  analysis (state w) = Some a -> currentFrameIndex (state w) = Int c ->
  stable (Page.elapse w) /\
  analysis (state (Page.elapse w)) = Some a /\
  currentFrameIndex (state (Page.elapse w)) = Int (c + 1) /\
  isPlaying (state (Page.elapse w)) = (c + 1 <? AnalysisResult.length a - 1).
Proof.
  intros Hst Hp Ha Hc. pose proof Hst as (Hd & Hcur & Hids & Ht).
  unfold timerOk in Ht. rewrite Hp in Ht.
  destruct Ht as (a' & c' & id & Ha' & Hc' & Hlt & Href & Hm).
  rewrite Ha in Ha'. injection Ha' as <-. rewrite Hc in Hc'. injection Hc' as <-.
  assert (Hst' : stable (Page.elapse w)).
  { unfold Page.elapse. rewrite Href. apply dispatch_stable; [exact Hst | reflexivity]. }
  split; [exact Hst'|].
  unfold Page.elapse in *. rewrite Href in *. unfold dispatch, perform in *.
  rewrite Hm, lookup_singleton_eq, delete_singleton_eq in *.
  set (w1 := mkMounted _ _ _ _ _) in *.
  rewrite settle_analysis, settle_cursor.
  assert (Hc1 : currentFrameIndex (state w1) = Int (c + 1))
    by (simpl; rewrite Hc; reflexivity).
  split; [exact Ha|]. split; [exact Hc1|].
  assert (Hne1 : depsOf (state w) <> depsOf (state w1)).
  { unfold depsOf. rewrite Hc1, Hc. intros E. injection E; intros; lia. }
  assert (Hp1 : refHoldsPending w1) by (left; reflexivity).
  assert (Hcur1 : cursorOk (state w1)).
  { exists (c + 1). split; [exact Hc1|]. simpl. rewrite Ha.
    destruct Hcur as (c' & Hc' & H0 & _). rewrite Hc in Hc'.
    injection Hc' as <-. split; lia. }
  destruct (Z.ltb_spec (c + 1) (AnalysisResult.length a - 1)) as [Hmore|Hlast].
  - assert (Hadv : advancing (state w1)).
    { split; [exact Hp|]. exists a, (c + 1). auto. }
    rewrite (settle_changed_advancing w1 _ Hd Hne1 Hids Hp1 Hadv). exact Hp.
  - assert (Hnot : ~ advancing (state w1)).
    { intros (_ & a' & c' & Ea & Ec & Hlt').
      change (analysis (state w1)) with (analysis (state w)) in Ea.
      rewrite Ha in Ea. injection Ea as <-. rewrite Hc1 in Ec.
      injection Ec as <-. lia. }
    rewrite (settle_changed_stopped w1 _ Hd Hne1 Hids Hp1 Hcur1 Hnot). reflexivity.
Qed.

Lemma elapse_reachable (w : Mounted) : reachable w -> reachable (Page.elapse w).
Proof.
  intros Hr. unfold Page.elapse. destruct (playbackRef w) as [id|]; [|exact Hr].
  apply reachable_dispatch; [exact Hr | reflexivity].
Qed.

Lemma elapse_iter (k : nat) (w : Mounted) (a : AnalysisResult.t) (c : Z) :
  stable w -> analysis (state w) = Some a -> currentFrameIndex (state w) = Int c ->
  c <= AnalysisResult.length a - 1 ->
  isPlaying (state w) = (c <? AnalysisResult.length a - 1) ->
  let w' := Nat.iter k Page.elapse w in
  stable w' /\
  analysis (state w') = Some a /\
  currentFrameIndex (state w')
    = Int (Z.min (c + Z.of_nat k) (AnalysisResult.length a - 1)) /\
  isPlaying (state w') = (c + Z.of_nat k <? AnalysisResult.length a - 1).
Proof.
  intros Hst Ha Hc Hle Hp. induction k as [|k IH].
  - cbv zeta. change (Z.of_nat 0) with 0. rewrite Z.add_0_r, Z.min_l by lia.
    split; [exact Hst|]. split; [exact Ha|]. split; [exact Hc | exact Hp].
  - cbv zeta in *. destruct IH as (Hst' & Ha' & Hc' & Hp').
    rewrite Nat.iter_succ.
    destruct (Z.ltb_spec (c + Z.of_nat k) (AnalysisResult.length a - 1)) as [Hlt|Hge].
    + rewrite Z.min_l in Hc' by lia.
      destruct (elapse_playing _ a _ Hst' Hp' Ha' Hc') as (H1 & H2 & H3 & H4).
      split; [exact H1|]. split; [exact H2|]. split.
      * rewrite H3. f_equal. lia.
      * rewrite H4. f_equal. lia.
    + rewrite (elapse_idle _ Hst' Hp'). rewrite Z.min_r in Hc' by lia.
      split; [exact Hst'|]. split; [exact Ha'|]. split.
      * rewrite Hc'. f_equal. lia.
      * rewrite Hp'. symmetry. apply Z.ltb_ge. lia.
Qed.

(** X5. Left alone while playing from frame [c], after [k] delays the
    component shows frame [c + k], up to the last one, where it stays; it is
    playing exactly while below the last frame, and once there no timeout
    is pending. *)
Theorem playback_runs_to_the_last_frame (w : Mounted) (a : AnalysisResult.t)
    (c : Z) (k : nat) :
  reachable w -> isPlaying (state w) = true ->
  analysis (state w) = Some a -> currentFrameIndex (state w) = Int c ->
  let w' := Nat.iter k Page.elapse w in
  currentFrameIndex (state w')
    = Int (Z.min (c + Z.of_nat k) (AnalysisResult.length a - 1)) /\
  isPlaying (state w') = (c + Z.of_nat k <? AnalysisResult.length a - 1) /\
  analysis (state w') = Some a /\
  (AnalysisResult.length a - 1 <= c + Z.of_nat k -> timeouts w' = ∅).
Proof.
  intros Hr Hp Ha Hc. pose proof (reachable_stable w Hr) as Hst.
  destruct (stable_playing w Hst Hp) as (_ & a' & c' & Ha' & Hc' & Hlt).
  rewrite Ha in Ha'. injection Ha' as <-. rewrite Hc in Hc'. injection Hc' as <-.
  assert (Hp0 : isPlaying (state w) = (c <? AnalysisResult.length a - 1)).
  { rewrite Hp. symmetry. apply Z.ltb_lt. exact Hlt. }
  destruct (elapse_iter k w a c Hst Ha Hc ltac:(lia) Hp0) as (Hst' & Ha' & Hc' & Hp').
  cbv zeta. split; [exact Hc'|]. split; [exact Hp'|]. split; [exact Ha'|].
  intros Hend. destruct Hst' as (_ & _ & _ & Ht). unfold timerOk in Ht.
  rewrite Hp' in Ht. destruct (Z.ltb_spec (c + Z.of_nat k) (AnalysisResult.length a - 1));
    [lia | exact Ht].
Qed.

(** X6. Pressing play while playing pauses at the same frame with no
    timeout pending; pressing it again gives back the state before the
    pause, with one new timeout of 1500 milliseconds, not the old one. *)
Theorem pause_and_resume (w : Mounted) :
  reachable w -> isPlaying (state w) = true ->
  (state (dispatch TogglePlay w) = setIsPlaying false (state w) /\
   timeouts (dispatch TogglePlay w) = ∅) /\
  (state (dispatch TogglePlay (dispatch TogglePlay w)) = state w /\
   exists id, timeouts (dispatch TogglePlay (dispatch TogglePlay w)) = {[ id := 1500 ]} /\
              timeouts w !! id = None).
Proof.
  intros Hr Hp. pose proof (reachable_stable w Hr) as Hst.
  pose proof Hst as (Hd & Hcur & Hids & Ht).
  destruct (stable_playing w Hst Hp) as (_ & a & c & Ha & Hc & Hlt).
  assert (Etp : togglePlay (state w) = setIsPlaying false (state w)).
  { unfold togglePlay, framesLength. rewrite Ha, Hc, Hp. simpl.
    destruct (Z.leb_spec (AnalysisResult.length a - 1) c); [lia | reflexivity]. }
  assert (E1 : dispatch TogglePlay w
               = mkMounted (setIsPlaying false (state w)) (playbackRef w) ∅
                           (nextTimerId w)
                           (Some (depsOf (setIsPlaying false (state w))))).
  { unfold dispatch, perform, handle. rewrite Etp.
    set (w0 := withState _ w).
    assert (Hne : depsOf (state w) <> depsOf (state w0)).
    { unfold depsOf. simpl. rewrite Hp. intros E. discriminate. }
    assert (Hnot : ~ advancing (state w0)) by (intros [E _]; discriminate).
    rewrite (settle_changed_stopped w0 _ Hd Hne Hids
               (stable_refHoldsPending w Hst) Hcur Hnot).
    reflexivity. }
  rewrite E1. split; [split; reflexivity|].
  set (w1 := mkMounted _ _ _ _ _).
  assert (Hst1 : stable w1)
    by (unfold w1; rewrite <- E1; apply dispatch_stable; [exact Hst | reflexivity]).
  pose proof Hst1 as (Hd1 & _ & Hids1 & _).
  assert (Etp1 : togglePlay (state w1) = state w).
  { unfold togglePlay, framesLength. simpl. rewrite Ha, Hc. simpl.
    destruct (Z.leb_spec (AnalysisResult.length a - 1) c); [lia|].
    rewrite <- Hp. destruct (state w); reflexivity. }
  unfold dispatch, perform, handle. rewrite Etp1.
  set (w2 := withState (state w) w1).
  assert (Hadv : advancing (state w2)).
  { split; [exact Hp|]. exists a, c. auto. }
  assert (Hne : depsOf (state w1) <> depsOf (state w2)).
  { unfold depsOf. simpl. rewrite Hp. intros E. discriminate. }
  rewrite (settle_changed_advancing w2 _ Hd1 Hne Hids1
             (stable_refHoldsPending w1 Hst1) Hadv).
  simpl. split; [reflexivity|]. exists (nextTimerId w). split; [reflexivity|].
  unfold timerOk in Ht. rewrite Hp in Ht.
  destruct Ht as (_ & _ & id & _ & _ & _ & Href & ->).
  apply lookup_singleton_ne. destruct Hids as [_ Hid].
  specialize (Hid id Href). lia.
Qed.

Lemma controls_rendered (s : State) :
  View.controls s = None <-> controlsRendered s = false.
Proof.
  unfold View.controls, controlsRendered.
  destruct (analysis s) as [a|]; [|tauto].
  destruct (0 <? AnalysisResult.length a); split; intros; try discriminate; reflexivity.
Qed.

Lemma state_dispatch (e : Event) (w : Mounted) :
  (state (dispatch e w) = state w /\ exists id, e = Timeout id /\ timeouts w !! id = None)
  \/ ((state (dispatch e w) = handle e (state w) \/
       state (dispatch e w) = setIsPlaying false (handle e (state w)))
      /\ forall id, e = Timeout id -> is_Some (timeouts w !! id)).
Proof.
  assert (Hgen : forall w1, state w1 = handle e (state w) ->
            state (settle w1) = handle e (state w) \/
            state (settle w1) = setIsPlaying false (handle e (state w))).
  { intros w1 E. destruct (state_settle w1) as [E'|E']; rewrite E', E; auto. }
  destruct e; try (right; split; [apply Hgen; reflexivity | intros ? ?; discriminate]).
  unfold dispatch, perform. destruct (timeouts w !! id) as [delay|] eqn:Hl.
  - right. split; [apply Hgen; reflexivity|]. intros id' [= <-]. rewrite Hl. eauto.
  - left. eauto.
Qed.

Lemma handle_cellsOk (e : Event) (s : State) :
  cellsOk s -> cursorOk s ->
  match e with
  | RunClick => loading s = false
  | RunSettled _ => loading s = true
  | Next | Prev | TogglePlay => controlsRendered s = true
  | SliderChange v => sliderDelivers s v = true
  | Timeout _ => advancing s
  | _ => True
  end ->
  cellsOk (handle e s).
Proof.
  intros Hs (c & Hc & H0 & Hca) Hen. pose proof Hs as (Hload & Herr & Hcur).
  assert (Hkeep : forall s' : State,
            loading s' = loading s -> error s' = error s ->
            analysis s' = analysis s -> controlsRendered s = true ->
            cellsOk s').
  { intros s' El Ee Ea Hctl. unfold cellsOk, controlsRendered in *.
    rewrite El, Ee, Ea, Hctl. split; [exact Hload|]. split; [exact Herr|].
    discriminate. }
  destruct e as [m|text| | |[r|]| | |v| |id]; simpl.
  - (* ModeChange *)
    split; [intros _; split; reflexivity|]. split; [left; reflexivity|].
    reflexivity.
  - exact Hs.
  - exact Hs.
  - (* RunClick *)
    unfold handleRun_begin. destruct (negb _); simpl; [exact Hs|].
    split; [intros _; split; reflexivity|]. split; [left; reflexivity|].
    reflexivity.
  - (* fulfilled *)
    destruct (Hload Hen) as [Ha He].
    assert (Hc0 : currentFrameIndex s = Int 0).
    { apply Hcur. unfold controlsRendered. rewrite Ha. reflexivity. }
    unfold handleRun_fulfilled, cellsOk, controlsRendered.
    destruct (0 <? AnalysisResult.length r) eqn:El; simpl; rewrite ?El.
    + split; [discriminate|]. split; [left; exact He|]. discriminate.
    + split; [discriminate|]. split; [left; exact He|]. intros _. exact Hc0.
  - (* rejected *)
    destruct (Hload Hen) as [Ha He]. unfold handleRun_rejected, cellsOk. simpl.
    split; [discriminate|]. split; [right; split; [reflexivity | exact Ha]|].
    exact Hcur.
  - (* Next *)
    unfold handleNext. destruct (analysis s) as [a|] eqn:Ea; [|exact Hs].
    destruct (lt _ _); [|exact Hs]. apply Hkeep; try reflexivity; [exact Ea | exact Hen].
  - (* Prev *)
    unfold handlePrev. destruct (gt _ _); [|exact Hs].
    apply Hkeep; try reflexivity. exact Hen.
  - (* Slider *)
    unfold sliderDelivers in Hen. apply andb_prop in Hen as [Hen _].
    apply Hkeep; try reflexivity. exact Hen.
  - (* TogglePlay *)
    unfold togglePlay. destruct (ge _ _); apply Hkeep; try reflexivity; exact Hen.
  - (* Timeout *)
    destruct Hen as (_ & a & c' & Ea & Ec & Hlt).
    apply Hkeep; try reflexivity. unfold controlsRendered. rewrite Ea.
    rewrite Hc in Ec. injection Ec as <-. apply Z.ltb_lt. lia.
Qed.

Lemma enabled_deliverable (p : Page.Page) (e : Event) :
  Page.enabled p e = true -> deliverable (state (Page.component p)) e = true.
Proof. destruct e; simpl; auto. Qed.

Lemma act_pageOk (e : Event) (p : Page.Page) :
  pageOk p -> Page.enabled p e = true -> pageOk (Page.act e p).
Proof.
  intros (Hst & Hcells & Haw) Hen. pose proof Hst as (_ & Hcur & _).
  set (w := Page.component p) in *. set (s := state w) in *.
  assert (Hst' : stable (dispatch e w))
    by (apply dispatch_stable; [exact Hst | apply enabled_deliverable; exact Hen]).
  split; [exact Hst'|].
  unfold Page.act. cbn [Page.component Page.awaited]. fold w. fold s.
  destruct (state_dispatch e w) as [(Es & id & -> & Hl) | (Es & Hpend)].
  - (* a timeout that is not pending *)
    rewrite Es. split; [exact Hcells | exact Haw].
  - assert (Hpre : match e with
                   | RunClick => loading s = false
                   | RunSettled _ => loading s = true
                   | Next | Prev | TogglePlay => controlsRendered s = true
                   | SliderChange v => sliderDelivers s v = true
                   | Timeout _ => advancing s
                   | _ => True
                   end).
    { destruct e; simpl in Hen; try exact I.
      - unfold View.runDisabled in Hen. fold w s in Hen.
        destruct (loading s); [discriminate | reflexivity].
      - fold w s in Haw. destruct (loading s); [reflexivity|].
        rewrite Haw in Hen. discriminate.
      - fold w s in Hen. destruct (View.controls s) eqn:E; [|discriminate].
        destruct (controlsRendered s) eqn:E'; [reflexivity|].
        apply controls_rendered in E'. congruence.
      - fold w s in Hen. destruct (View.controls s) eqn:E; [|discriminate].
        destruct (controlsRendered s) eqn:E'; [reflexivity|].
        apply controls_rendered in E'. congruence.
      - exact Hen.
      - fold w s in Hen. destruct (View.controls s) eqn:E; [|discriminate].
        destruct (controlsRendered s) eqn:E'; [reflexivity|].
        apply controls_rendered in E'. congruence.
      - destruct (Hpend id eq_refl) as [delay Hl].
        apply (stable_pending w id delay Hst Hl). }
    pose proof (handle_cellsOk e s Hcells Hcur Hpre) as Hc'.
    assert (Hcells' : cellsOk (state (dispatch e w)))
      by (destruct Es as [-> | ->]; exact Hc').
    split; [exact Hcells'|].
    assert (El : loading (state (dispatch e w)) = loading (handle e s))
      by (destruct Es as [-> | ->]; reflexivity).
    rewrite El. subst s w.
    destruct e; simpl in *; try exact Haw.
    + (* RunClick *)
      rewrite Hpre in Haw. unfold handleRun_begin.
      destruct (negb (truthy (trim (code (state (Page.component p))))));
        simpl; [rewrite Hpre; exact Haw | rewrite Haw; reflexivity].
    + (* RunSettled *)
      rewrite Hpre in Haw. rewrite Haw. destruct o; reflexivity.
    + unfold handleNext. destruct (analysis _); [|exact Haw].
      destruct (lt _ _); exact Haw.
    + unfold handlePrev. destruct (gt _ _); exact Haw.
    + unfold togglePlay. destruct (ge _ _); exact Haw.
Qed.

Lemma page_reachable_ok (p : Page.Page) : Page.reachable p -> pageOk p.
Proof.
  induction 1 as [|p e _ IH Hen].
  - split; [exact mount_stable|]. split; [|reflexivity].
    split; [discriminate|]. split; [left; reflexivity | reflexivity].
  - exact (act_pageOk e p IH Hen).
Qed.

Lemma page_reachable_component (p : Page.Page) :
  Page.reachable p -> reachable (Page.component p).
Proof.
  induction 1 as [|p e _ IH Hen].
  - exact reachable_mount.
  - apply reachable_dispatch; [exact IH | apply enabled_deliverable; exact Hen].
Qed.

(** X11. On every page the user can reach, while the playback controls are
    not rendered (no analysis, or one without frames) the cursor is 0,
    playback is off, no timeout is pending and there is no current frame. *)
Theorem hidden_controls_at_rest (p : Page.Page) :
  Page.reachable p -> View.controls (state (Page.component p)) = None ->
  currentFrameIndex (state (Page.component p)) = Int 0 /\
  isPlaying (state (Page.component p)) = false /\
  timeouts (Page.component p) = ∅ /\
  currentFrame (state (Page.component p)) = None.
Proof.
  intros Hr Hctl. destruct (page_reachable_ok p Hr) as (Hst & (_ & _ & Hcur) & _).
  apply controls_rendered in Hctl.
  assert (Hp : isPlaying (state (Page.component p)) = false).
  { destruct (isPlaying _) eqn:Hp; [|reflexivity].
    destruct (stable_playing _ Hst Hp) as (_ & a & c & Ha & Hc & Hlt).
    destruct Hst as (_ & (c' & Hc' & H0 & _) & _).
    rewrite Hc in Hc'. injection Hc' as <-.
    unfold controlsRendered in Hctl. rewrite Ha in Hctl.
    apply Z.ltb_ge in Hctl. lia. }
  split; [exact (Hcur Hctl)|]. split; [exact Hp|]. split.
  - destruct Hst as (_ & _ & _ & Ht). unfold timerOk in Ht. rewrite Hp in Ht. exact Ht.
  - unfold currentFrame. unfold controlsRendered in Hctl.
    destruct (analysis _) as [a|]; [|reflexivity]. rewrite Hctl. reflexivity.
Qed.

(** X7. On every page the user can reach, at most one call of
    [analyzeCode] is awaited, and one is awaited exactly while the run
    button is disabled; a call can settle exactly when the button cannot be
    clicked. *)
Theorem one_request_in_flight (p : Page.Page) :
  Page.reachable p ->
  Page.awaited p = (if View.runDisabled (state (Page.component p)) then 1 else 0)%nat /\
  (forall o, Page.enabled p (RunSettled o) = negb (Page.enabled p RunClick)).
Proof.
  intros Hr. destruct (page_reachable_ok p Hr) as (_ & _ & Haw).
  split; [exact Haw|]. intros o. simpl. rewrite Haw. unfold View.runDisabled.
  destruct (loading _); reflexivity.
Qed.



(** X10. A language switch while a call is awaited does not cancel the
    call: when it answers, its result is loaded as the analysis, next to the
    template and language of the switch. *)
Theorem language_switch_keeps_the_request (p : Page.Page) (m : EditorMode)
    (result : AnalysisResult.t) :
  Page.reachable p -> loading (state (Page.component p)) = true ->
  let p' := Page.act (RunSettled (Fulfilled result)) (Page.act (ModeChange m) p) in
  Page.reachable p' /\
  mode (state (Page.component p')) = m /\
  code (state (Page.component p')) = CODE_TEMPLATES m /\
  analysis (state (Page.component p')) = Some result /\
  loading (state (Page.component p')) = false /\
  Page.awaited p' = 0%nat.
Proof.
  intros Hr Hl. cbv zeta.
  set (p1 := Page.act (ModeChange m) p).
  assert (Hr1 : Page.reachable p1) by (apply Page.reachable_act; [exact Hr | reflexivity]).
  destruct (page_reachable_ok p Hr) as (Hst & _ & Haw).
  rewrite Hl in Haw.
  assert (Hen : Page.enabled p1 (RunSettled (Fulfilled result)) = true).
  { simpl. rewrite Haw. reflexivity. }
  assert (Hr2 : Page.reachable (Page.act (RunSettled (Fulfilled result)) p1))
    by (apply Page.reachable_act; assumption).
  split; [exact Hr2|].
  assert (Hfields : forall (e : Event) (w : Mounted),
            (forall id, e <> Timeout id) ->
            mode (state (dispatch e w)) = mode (handle e (state w)) /\
            code (state (dispatch e w)) = code (handle e (state w)) /\
            analysis (state (dispatch e w)) = analysis (handle e (state w)) /\
            loading (state (dispatch e w)) = loading (handle e (state w))).
  { intros e w Hno.
    destruct (state_dispatch e w) as [(_ & id & -> & _) | ([-> | ->] & _)];
      [destruct (Hno id eq_refl) | |]; repeat split. }
  unfold Page.act at 1 2 3 4 5.
  cbn [Page.component Page.awaited].
  destruct (Hfields (RunSettled (Fulfilled result)) (Page.component p1))
    as (Em & Ec & Ea & El); [intros id; discriminate|].
  destruct (Hfields (ModeChange m) (Page.component p))
    as (Em1 & Ec1 & _ & _); [intros id; discriminate|].
  rewrite Em, Ec, Ea, El. unfold p1, Page.act. cbn [Page.component Page.awaited].
  unfold handle, handleRun_resume, handleRun_fulfilled.
  destruct (0 <? AnalysisResult.length result); simpl; rewrite Em1, Ec1, Haw;
    repeat split.
Qed.

(** X12. On every page the user can reach, a click on next or previous
    and a move of the slider leave exactly the state their handler
    computes: playback off, no timeout pending, the cursor one further, one
    back, or where the slider is. *)
Theorem manual_navigation_stops_playback (p : Page.Page) (e : Event) :
  Page.reachable p ->
  match e with Next | Prev | SliderChange _ => True | _ => False end ->
  Page.enabled p e = true ->
  state (Page.component (Page.act e p)) = handle e (state (Page.component p)) /\
  isPlaying (state (Page.component (Page.act e p))) = false /\
  timeouts (Page.component (Page.act e p)) = ∅ /\
  (e = Next ->
   exists c, currentFrameIndex (state (Page.component p)) = Int c /\
             currentFrameIndex (state (Page.component (Page.act e p))) = Int (c + 1)) /\
  (e = Prev ->
   exists c, currentFrameIndex (state (Page.component p)) = Int c /\
             currentFrameIndex (state (Page.component (Page.act e p))) = Int (c - 1)).
Proof.
  intros Hr He Hen. destruct (page_reachable_ok p Hr) as (Hst & _ & _).
  pose proof Hst as (_ & (c & Hc & H0 & Hca) & _).
  set (w := Page.component p) in *.
  assert (Hh : isPlaying (handle e (state w)) = false /\
               (e = Next -> currentFrameIndex (handle e (state w)) = Int (c + 1)) /\
               (e = Prev -> currentFrameIndex (handle e (state w)) = Int (c - 1))).
  { destruct e; try contradiction; simpl in Hen; fold w in Hen.
    - (* Next *)
      unfold View.controls in Hen.
      destruct (analysis (state w)) as [a|] eqn:Ha; [|discriminate].
      destruct (Z.ltb_spec 0 (AnalysisResult.length a)) as [Hlen|]; [|discriminate].
      simpl in Hen. rewrite Hc in Hen. simpl in Hen.
      apply negb_true_iff, Z.eqb_neq in Hen. specialize (Hca Hlen).
      simpl. rewrite (handleNext_advance _ a c Ha Hc) by lia.
      split; [reflexivity|]. split; [reflexivity | discriminate].
    - (* Prev *)
      unfold View.controls in Hen.
      destruct (analysis (state w)) as [a|] eqn:Ha; [|discriminate].
      destruct (Z.ltb_spec 0 (AnalysisResult.length a)) as [Hlen|]; [|discriminate].
      simpl in Hen. rewrite Hc in Hen. simpl in Hen.
      apply negb_true_iff, Z.eqb_neq in Hen.
      simpl. rewrite (handlePrev_back _ c Hc) by lia.
      split; [reflexivity|]. split; [discriminate | reflexivity].
    - split; [reflexivity|]. split; discriminate. }
  destruct Hh as (Hp & Hn & Hb).
  destruct (dispatch_rest e w Hst) as [Es Et].
  { apply enabled_deliverable. exact Hen. }
  { intros id ->. contradiction. }
  { exact Hp. }
  unfold Page.act. cbn [Page.component]. fold w.
  split; [exact Es|]. split; [rewrite Es; exact Hp|]. split; [exact Et|].
  split; intros E; exists c; (split; [exact Hc|]); rewrite Es; auto.
Qed.

Lemma templates_are_not_blank (m : EditorMode) :
  forallb isWhiteSpace (CODE_TEMPLATES m) = false.
Proof. destruct m; vm_compute; reflexivity. Qed.

(** X19. After a language switch the source code is that language's
    template, which is not blank: a run then always calls [analyzeCode],
    with the template and the new language. *)
Theorem run_after_language_switch (s : State) (m : EditorMode) :
  snd (handleRun_begin (handleModeChange m s)) = Some (CODE_TEMPLATES m, m).
Proof.
  assert (Ht : truthy (trim (code (handleModeChange m s))) = true).
  { destruct (trim (code (handleModeChange m s))) eqn:Et; [|reflexivity].
    apply trim_nil_iff in Et. simpl in Et.
    rewrite templates_are_not_blank in Et. discriminate. }
  rewrite (handleRun_begin_calls _ Ht). reflexivity.
Qed.

Lemma lexFrom_spaces (text : jsstring) :
  forallb isJsonSpace text = true -> lexFrom LDefault text = Some [].
Proof.
  induction text as [|c text IH]; simpl; [reflexivity|].
  intros H. apply andb_prop in H as [Hc Ht].
  unfold lexDefault. rewrite Hc, (IH Ht). reflexivity.
Qed.

(** X16. A response whose text is only JSON white space is treated in two
    ways: the empty text is read as the empty object and returned, any
    other makes the call throw its one error. *)
Theorem blank_response_text
    (ai : GenerateContentParameters -> GenerateContentOutcome)
    (code mode text : jsstring) :
  ai (request code mode) = Response (Some text) ->
  forallb isJsonSpace text = true ->
  analyzeCode ai code mode
  = match text with
    | [] => Return (JObject [])
    | _ :: _ => Throw (lit "Failed to analyze code execution.")
    end.
Proof.
  intros Hai Hblank. unfold analyzeCode. rewrite Hai.
  destruct text as [|c text]; [reflexivity|].
  unfold textOrEmptyObject, truthy, JSON_parse, lex.
  rewrite (lexFrom_spaces _ Hblank). reflexivity.
Qed.

(** X17. A run calls [analyzeCode] exactly when the source code has a
    character that is not white space, with the code as typed (not
    trimmed) and the current language; it then sets the loading flag and
    clears analysis, error, cursor and playback, leaving code and language
    alone. *)
Theorem run_calls_unless_blank (s : State) :
  snd (handleRun_begin s)
  = (if forallb isWhiteSpace (code s) then None else Some (code s, mode s))
  /\ (forallb isWhiteSpace (code s) = false ->
      let s' := fst (handleRun_begin s) in
      loading s' = true /\ analysis s' = None /\ error s' = None /\
      currentFrameIndex s' = Int 0 /\ isPlaying s' = false /\
      code s' = code s /\ mode s' = mode s).
Proof.
  destruct (forallb isWhiteSpace (code s)) eqn:E.
  - rewrite (handleRun_begin_blank s E). split; [reflexivity | discriminate].
  - assert (Ht : truthy (trim (code s)) = true).
    { destruct (trim (code s)) eqn:Et; [|reflexivity].
      apply trim_nil_iff in Et. congruence. }
    rewrite (handleRun_begin_calls s Ht). split; [reflexivity|].
    intros _. simpl. repeat split.
Qed.


(** *** The properties on the sample component and the scenarios *)

Lemma reachable_waiting : Page.reachable Scenario.waiting.
Proof. apply Page.reachable_act; [apply Page.reachable_opened | reflexivity]. Qed.


Lemma reachable_showing : Page.reachable Scenario.showing.
Proof. apply Page.reachable_act; [exact reachable_waiting | reflexivity]. Qed.

Lemma reachable_scenario_playing : Page.reachable Scenario.playing.
Proof. apply Page.reachable_act; [exact reachable_showing | reflexivity]. Qed.

Lemma current_frame_is_defined_witness :
  exists c f,
    currentFrameIndex (state Sample.loaded) = Int c /\
    currentFrame (state Sample.loaded) = Some f /\
    View.stepCounter (state Sample.loaded) = Some (Int (c + 1), 3).
Proof.
  destruct (current_frame_is_defined Sample.loaded Sample.three reachable_loaded)
    as (c & f & Hc & _ & _ & Hf & Hs & _); [reflexivity | reflexivity |].
  exists c, f. split; [exact Hc|]. split; [exact Hf | exact Hs].
Defined.

Lemma disabled_buttons_are_the_noops_witness :
  handlePrev (state Sample.loaded) = state Sample.loaded.
Proof.
  destruct (View.controls (state Sample.loaded)) as [c|] eqn:E;
    [|vm_compute in E; discriminate].
  destruct (disabled_buttons_are_the_noops Sample.loaded c reachable_loaded E)
    as [H _].
  apply H. vm_compute in E. injection E as <-. reflexivity.
Defined.

Lemma steps_undo_each_other_witness :
  handlePrev (handleNext (Sample.showing (Some Sample.three) (Int 1) true))
    = Sample.showing (Some Sample.three) (Int 1) false
  /\ handleNext (handlePrev (Sample.showing (Some Sample.three) (Int 1) true))
    = Sample.showing (Some Sample.three) (Int 1) false.
Proof.
  destruct (steps_undo_each_other (Sample.showing (Some Sample.three) (Int 1) true)
              Sample.three 1 eq_refl eq_refl) as [H1 H2].
  split.
  - rewrite H1; [reflexivity|]. vm_compute. split; [discriminate | reflexivity].
  - rewrite H2; [reflexivity|]. vm_compute. split; [reflexivity | discriminate].
Defined.

Lemma edits_leave_playback_alone_witness :
  timeouts (dispatch (CodeChange (lit "x = 1")) Sample.playing)
    = timeouts Sample.playing /\
  isPlaying (state (dispatch ThemeToggle Sample.playing)) = true.
Proof.
  destruct (edits_leave_playback_alone Sample.playing (lit "x = 1") reachable_playing)
    as [H1 H2].
  rewrite H1, H2. split; vm_compute; reflexivity.
Defined.

Lemma playback_runs_to_the_last_frame_witness :
  currentFrameIndex (state (Nat.iter 2 Page.elapse Sample.playing)) = Int 2 /\
  isPlaying (state (Nat.iter 2 Page.elapse Sample.playing)) = false /\
  currentFrameIndex (state (Nat.iter 5 Page.elapse Sample.playing)) = Int 2.
Proof.
  destruct (playback_runs_to_the_last_frame Sample.playing Sample.three 0 2
              reachable_playing eq_refl eq_refl eq_refl) as (Hc & Hp & _).
  destruct (playback_runs_to_the_last_frame Sample.playing Sample.three 0 5
              reachable_playing eq_refl eq_refl eq_refl) as (Hc' & _).
  split; [exact Hc|]. split; [exact Hp | exact Hc'].
Defined.

Lemma pause_and_resume_witness :
  isPlaying (state (dispatch TogglePlay Sample.playing)) = false /\
  timeouts (dispatch TogglePlay Sample.playing) = ∅ /\
  state (dispatch TogglePlay (dispatch TogglePlay Sample.playing))
    = state Sample.playing.
Proof.
  destruct (pause_and_resume Sample.playing reachable_playing eq_refl)
    as ((Hs & Ht) & (Hs' & _)).
  split; [rewrite Hs; reflexivity|]. split; [exact Ht | exact Hs'].
Defined.

Lemma one_request_in_flight_witness :
  Page.awaited Scenario.waiting = 1%nat /\
  Page.enabled Scenario.waiting RunClick = false /\
  Page.awaited Scenario.showing = 0%nat.
Proof.
  destruct (one_request_in_flight Scenario.waiting reachable_waiting) as [H1 H2].
  destruct (one_request_in_flight Scenario.showing reachable_showing) as [H3 _].
  split; [exact H1|]. split; [|exact H3].
  specialize (H2 Rejected). apply negb_true_iff. rewrite <- H2. reflexivity.
Defined.



Lemma language_switch_keeps_the_request_witness :
  let p := Page.act (RunSettled (Fulfilled Sample.three))
             (Page.act (ModeChange JAVA) Scenario.waiting) in
  mode (state (Page.component p)) = JAVA /\
  code (state (Page.component p)) = CODE_TEMPLATES JAVA /\
  analysis (state (Page.component p)) = Some Sample.three.
Proof.
  destruct (language_switch_keeps_the_request Scenario.waiting JAVA Sample.three
              reachable_waiting eq_refl) as (_ & Hm & Hc & Ha & _).
  split; [exact Hm|]. split; [exact Hc | exact Ha].
Defined.

Lemma hidden_controls_at_rest_witness :
  currentFrameIndex (state (Page.component Page.opened)) = Int 0 /\
  isPlaying (state (Page.component Page.opened)) = false.
Proof.
  destruct (hidden_controls_at_rest Page.opened Page.reachable_opened eq_refl)
    as (Hc & Hp & _).
  split; [exact Hc | exact Hp].
Defined.

Lemma manual_navigation_stops_playback_witness :
  isPlaying (state (Page.component (Page.act Next Scenario.playing))) = false /\
  timeouts (Page.component (Page.act Next Scenario.playing)) = ∅ /\
  currentFrameIndex (state (Page.component (Page.act Next Scenario.playing))) = Int 1.
Proof.
  destruct (manual_navigation_stops_playback Scenario.playing Next
              reachable_scenario_playing I eq_refl) as (_ & Hp & Ht & Hn & _).
  split; [exact Hp|]. split; [exact Ht|].
  destruct (Hn eq_refl) as (c & Hc & Hc').
  vm_compute in Hc. injection Hc as <-. exact Hc'.
Defined.

Lemma blank_response_text_witness :
  analyzeCode (Sample.answering (Some [0x20%N; 0xA%N]))
    (lit "head = Node(1)") (lit "python")
  = Throw (lit "Failed to analyze code execution.").
Proof.
  apply (blank_response_text (Sample.answering (Some [0x20%N; 0xA%N]))
           (lit "head = Node(1)") (lit "python") [0x20%N; 0xA%N]);
    reflexivity.
Defined.

Lemma run_calls_unless_blank_witness :
  snd (handleRun_begin initialState) = Some (CODE_TEMPLATES PYTHON, PYTHON) /\
  loading (fst (handleRun_begin initialState)) = true.
Proof.
  destruct (run_calls_unless_blank initialState) as [H1 H2].
  split; [rewrite H1; reflexivity|].
  apply H2. vm_compute. reflexivity.
Defined.


(** ** The renderer *)

Import Visualizer.

Lemma initializeNodes_datum (i : nat) (ds : list GraphNode.t) :
  map datum (initializeNodes i ds) = ds.
Proof.
  revert i. induction ds as [|d ds IH]; intros i; simpl; [reflexivity|].
  rewrite IH. reflexivity.
Qed.

Lemma fold_insert_is_Some (ns : list SimNode) (m : gmap jsstring SimNode)
    (k : jsstring) :
  is_Some (fold_left (fun m d => <[GraphNode.id (datum d) := d]> m) ns m !! k)
  <-> In k (map (fun d => GraphNode.id (datum d)) ns) \/ is_Some (m !! k).
Proof.
  revert m. induction ns as [|d ns IH]; intros m; simpl.
  - tauto.
  - rewrite IH, lookup_insert_is_Some.
    destruct (decide (GraphNode.id (datum d) = k)); tauto.
Qed.

Lemma fold_insert_id (ns : list SimNode) (m : gmap jsstring SimNode)
    (k : jsstring) (n : SimNode) :
  (forall n', m !! k = Some n' -> GraphNode.id (datum n') = k) ->
  fold_left (fun m d => <[GraphNode.id (datum d) := d]> m) ns m !! k = Some n ->
  GraphNode.id (datum n) = k.
Proof.
  revert m. induction ns as [|d ns IH]; intros m Hm; simpl.
  - apply Hm.
  - apply IH. intros n' Hn'.
    apply lookup_insert_Some in Hn' as [[E1 <-] | [_ Hn']]; [exact E1|].
    apply Hm. exact Hn'.
Qed.

Lemma simNode_ids (i : nat) (ds : list GraphNode.t) :
  map (fun d => GraphNode.id (datum d)) (initializeNodes i ds)
  = map GraphNode.id ds.
Proof.
  rewrite <- (initializeNodes_datum i ds) at 2. rewrite map_map. reflexivity.
Qed.

Lemma find_present (ds : list GraphNode.t) (k : jsstring) :
  In k (map GraphNode.id ds) ->
  exists n, find (nodeById (initializeNodes 0 ds)) k = Return n /\
            GraphNode.id (datum n) = k.
Proof.
  intros Hin. unfold find, nodeById.
  destruct (fold_left _ _ _ !! k) as [n|] eqn:E.
  - exists n. split; [reflexivity|].
    apply (fold_insert_id (initializeNodes 0 ds) ∅ k n); [|exact E].
    intros n' Hn'. rewrite lookup_empty in Hn'. discriminate.
  - exfalso. apply eq_None_not_Some in E. apply E.
    apply fold_insert_is_Some. left. rewrite simNode_ids. exact Hin.
Qed.

Lemma find_absent (ds : list GraphNode.t) (k : jsstring) :
  ~ In k (map GraphNode.id ds) ->
  find (nodeById (initializeNodes 0 ds)) k
    = Throw (lit "node not found: " ++ k).
Proof.
  intros Hnot. unfold find, nodeById.
  destruct (fold_left _ _ _ !! k) as [n|] eqn:E; [|reflexivity].
  exfalso. apply Hnot. rewrite <- (simNode_ids 0).
  destruct (proj1 (fold_insert_is_Some (initializeNodes 0 ds) ∅ k)) as [H|H].
  - rewrite E. eauto.
  - exact H.
  - rewrite lookup_empty in H. destruct H. discriminate.
Qed.

Lemma initializeLinks_all_present (ds : list GraphNode.t) (es : list GraphEdge.t)
    (i : nat) :
  Forall (endpointsPresent (map GraphNode.id ds)) es ->
  exists ls, initializeLinks (nodeById (initializeNodes 0 ds)) i es = Return ls /\
             map edgeOfLink ls = es.
Proof.
  intros Hall. revert i. induction Hall as [|e es [Hs Ht] _ IH]; intros i; simpl.
  - exists []. split; reflexivity.
  - destruct (find_present ds _ Hs) as (s & -> & Es).
    destruct (find_present ds _ Ht) as (t & -> & Et).
    destruct (IH (S i)) as (ls & -> & Els). simpl.
    eexists. split; [reflexivity|]. simpl. rewrite Els.
    unfold edgeOfLink. simpl. rewrite Es, Et. destruct e; reflexivity.
Qed.

Lemma In_or_not (k : jsstring) (l : list jsstring) : In k l \/ ~ In k l.
Proof.
  destruct (decide (k ∈ l)) as [H|H]; rewrite list_elem_of_In in H; auto.
Qed.

Lemma initializeLinks_some_absent (ds : list GraphNode.t) (es : list GraphEdge.t)
    (i : nat) :
  Exists (fun e => ~ endpointsPresent (map GraphNode.id ds) e) es ->
  exists missing,
    ~ In missing (map GraphNode.id ds) /\
    (exists e, In e es /\
               (missing = GraphEdge.source e \/ missing = GraphEdge.target e)) /\
    initializeLinks (nodeById (initializeNodes 0 ds)) i es
      = Throw (lit "node not found: " ++ missing).
Proof.
  intros Hex. revert i. induction es as [|e es IH]; intros i.
  - inversion Hex.
  - simpl.
    destruct (In_or_not (GraphEdge.source e) (map GraphNode.id ds)) as [Hs|Hs].
    + destruct (find_present ds _ Hs) as (s & -> & _). simpl.
      destruct (In_or_not (GraphEdge.target e) (map GraphNode.id ds)) as [Ht|Ht].
      * destruct (find_present ds _ Ht) as (t & -> & _). simpl.
        assert (Hex' : Exists (fun e => ~ endpointsPresent (map GraphNode.id ds) e) es).
        { inversion Hex as [? ? H|]; [|assumption]. exfalso. apply H. split; assumption. }
        destruct (IH Hex' (S i)) as (missing & Hm & (e' & He' & Hor) & ->).
        exists missing. split; [exact Hm|]. split; [|reflexivity].
        exists e'. split; [right; exact He' | exact Hor].
      * rewrite (find_absent ds _ Ht). simpl. eexists. split; [exact Ht|].
        split; [|reflexivity]. exists e. split; [left; reflexivity | right; reflexivity].
    + rewrite (find_absent ds _ Hs). simpl. eexists. split; [exact Hs|].
      split; [|reflexivity]. exists e. split; [left; reflexivity | left; reflexivity].
Qed.

(** C3, amended. The drawing effect does not filter edges. When both ends
    of every edge are identifiers of nodes of the frame, it draws one line
    per edge, in order and none left out, and one group per node. When some
    edge names an identifier that no node has, initialising the link force
    throws "node not found" for such an identifier, and the effect ends
    there. *)
Theorem C3_edges_are_not_filtered (p : VisualizerProps) (before : SvgContent) :
  loading p = false -> nodes p <> [] \/ edges p <> [] ->
  (Forall (endpointsPresent (map GraphNode.id (nodes p))) (edges p) ->
   exists scene,
     draw true p before = Return (Graph scene) /\
     map (fun l => edgeOfLink (lineDatum l)) (lines scene) = edges p /\
     map (fun g => datum (nodeDatum g)) (nodeGroups scene) = nodes p)
  /\ (Exists (fun e => ~ endpointsPresent (map GraphNode.id (nodes p)) e) (edges p) ->
      exists missing,
        ~ In missing (map GraphNode.id (nodes p)) /\
        draw true p before = Throw (lit "node not found: " ++ missing)).
Proof.
  intros Hload Hsome.
  assert (Hnonempty : (length (nodes p) =? 0)%nat && (length (edges p) =? 0)%nat = false).
  { destruct (nodes p), (edges p); simpl; try reflexivity.
    destruct Hsome as [H|H]; contradiction. }
  unfold draw. rewrite Hload, Hnonempty. simpl. split.
  - intros Hall.
    destruct (initializeLinks_all_present (nodes p) (edges p) 0 Hall)
      as (ls & -> & Els).
    simpl. eexists. split; [reflexivity|]. simpl. split.
    + rewrite map_map. simpl. exact Els.
    + rewrite map_map. simpl. apply initializeNodes_datum.
  - intros Hex.
    destruct (initializeLinks_some_absent (nodes p) (edges p) 0 Hex)
      as (missing & Hm & _ & ->).
    exists missing. split; [exact Hm | reflexivity].
Qed.

(** The frame with [n1], [n2] and the edge between them is drawn with its
    one edge. *)
Lemma C3_edges_are_not_filtered_witness :
  exists scene,
    draw true (Sample.props [Sample.e12]) Blank = Return (Graph scene) /\
    map (fun l => edgeOfLink (lineDatum l)) (lines scene) = [Sample.e12].
Proof.
  destruct (C3_edges_are_not_filtered (Sample.props [Sample.e12]) Blank)
    as (H & _).
  - reflexivity.
  - left. discriminate.
  - destruct H as (scene & Hd & Hl & _).
    { constructor; [|constructor].
      split; [left; reflexivity | right; left; reflexivity]. }
    exists scene. split; assumption.
Defined.

(** C3, as the claim states it, fails: with the nodes [n1], [n2] and the
    edges [n1 -> n2], [n1 -> n3], where no node is [n3], the effect does not
    draw the remaining edge and nodes: it throws. *)
Lemma C3_dangling_edge_is_fatal :
  ~ In (lit "n3") (map GraphNode.id (nodes (Sample.props [Sample.e12; Sample.e13]))) /\
  draw true (Sample.props [Sample.e12; Sample.e13]) Blank
    = Throw (lit "node not found: n3") /\
  forall scene,
    draw true (Sample.props [Sample.e12; Sample.e13]) Blank <> Return (Graph scene).
Proof.
  split; [|split].
  - vm_compute. intros [H|[H|[]]]; discriminate.
  - vm_compute. reflexivity.
  - intros scene. vm_compute. discriminate.
Qed.

(** ** More on the renderer and the export *)

Import Links VisualizerView.

Lemma initializeLinks_firstMissing (ds : list GraphNode.t) (es : list GraphEdge.t)
    (i : nat) :
  match firstMissing (map GraphNode.id ds) es with
  | Some k =>
      initializeLinks (nodeById (initializeNodes 0 ds)) i es
        = Throw (lit "node not found: " ++ k)
  | None =>
      exists ls, initializeLinks (nodeById (initializeNodes 0 ds)) i es = Return ls
  end.
Proof.
  revert i. induction es as [|e es IH]; intros i; simpl.
  - eauto.
  - destruct (bool_decide_reflect (GraphEdge.source e ∈ map GraphNode.id ds)) as [Hs|Hs];
      rewrite list_elem_of_In in Hs; simpl.
    + destruct (find_present ds _ Hs) as (s & -> & _). simpl.
      destruct (bool_decide_reflect (GraphEdge.target e ∈ map GraphNode.id ds)) as [Ht|Ht];
        rewrite list_elem_of_In in Ht; simpl.
      * destruct (find_present ds _ Ht) as (t & -> & _). simpl.
        specialize (IH (S i)).
        destruct (firstMissing _ es) as [k|].
        -- rewrite IH. reflexivity.
        -- destruct IH as (ls & ->). simpl. eauto.
      * rewrite (find_absent ds _ Ht). reflexivity.
    + rewrite (find_absent ds _ Hs). reflexivity.
Qed.

(** X13. The drawing effect succeeds exactly when every end of every edge
    is the identifier of a node; otherwise the error it throws names the
    first missing identifier in the order the edges are given, the source
    of an edge before its target. *)
Theorem draw_names_the_first_missing_node (p : VisualizerProps) (before : SvgContent) :
  loading p = false -> nodes p <> [] \/ edges p <> [] ->
  match firstMissing (map GraphNode.id (nodes p)) (edges p) with
  | Some k => draw true p before = Throw (lit "node not found: " ++ k)
  | None => exists scene, draw true p before = Return (Graph scene)
  end.
Proof.
  intros Hload Hsome.
  assert (Hnonempty : (length (nodes p) =? 0)%nat && (length (edges p) =? 0)%nat = false).
  { destruct (nodes p), (edges p); simpl; try reflexivity.
    destruct Hsome as [H|H]; contradiction. }
  unfold draw. rewrite Hload, Hnonempty. simpl.
  pose proof (initializeLinks_firstMissing (nodes p) (edges p) 0) as H.
  destruct (firstMissing _ _) as [k|].
  - rewrite H. reflexivity.
  - destruct H as (ls & ->). simpl. eauto.
Qed.




Lemma stripPrefix_Some (prefix s rest : jsstring) :
  stripPrefix prefix s = Some rest <-> s = prefix ++ rest.
Proof.
  revert s. induction prefix as [|c prefix IH]; intros s; simpl.
  - split; [intros [= ->] | intros ->]; reflexivity.
  - destruct s as [|d s]; [split; discriminate|].
    destruct (N.eqb_spec c d) as [<-|Hne].
    + rewrite IH. split; [intros -> | intros [= ->]]; reflexivity.
    + split; [discriminate | intros [= -> _]; contradiction].
Qed.

Lemma stripPrefix_app (prefix rest : jsstring) :
  stripPrefix prefix (prefix ++ rest) = Some rest.
Proof. apply stripPrefix_Some. reflexivity. Qed.

Lemma startsWith_app (prefix rest : jsstring) :
  startsWith prefix (prefix ++ rest) = true.
Proof.
  induction prefix as [|c prefix IH]; simpl; [reflexivity|].
  rewrite N.eqb_refl. exact IH.
Qed.

Lemma restOfTag_unfold (attr s : jsstring) :
  restOfTag attr s
  = startsWith attr s ||
    match s with
    | c :: s' => negb (c =? 0x3E)%N && restOfTag attr s'
    | [] => false
    end.
Proof. destruct s; reflexivity. Qed.

Lemma restOfTag_prepend (attr pre s : jsstring) :
  forallb (fun c => negb (c =? 0x3E)%N) pre = true ->
  restOfTag attr s = true -> restOfTag attr (pre ++ s) = true.
Proof.
  intros Hpre Hs. induction pre as [|c pre IH]; simpl in *; [exact Hs|].
  apply andb_prop in Hpre as [Hc Hpre].
  rewrite Hc, (IH Hpre). simpl. apply orb_true_r.
Qed.

Lemma matchesSvgWith_inserted (attr rest : jsstring) :
  matchesSvgWith attr ((lit "<svg " ++ attr) ++ rest) = true.
Proof.
  unfold matchesSvgWith.
  change ((lit "<svg " ++ attr) ++ rest)
    with (lit "<svg" ++ 0x20%N :: (attr ++ rest)).
  rewrite stripPrefix_app. simpl negb.
  rewrite restOfTag_unfold, startsWith_app. reflexivity.
Qed.

Lemma matchesSvgWith_kept (attr other rest : jsstring) :
  forallb (fun c => negb (c =? 0x3E)%N) other = true ->
  matchesSvgWith attr (lit "<svg" ++ rest) = true ->
  matchesSvgWith attr ((lit "<svg " ++ other) ++ rest) = true.
Proof.
  intros Hother. unfold matchesSvgWith.
  change ((lit "<svg " ++ other) ++ rest)
    with (lit "<svg" ++ 0x20%N :: (other ++ rest)).
  rewrite !stripPrefix_app. destruct rest as [|c rest]; [discriminate|].
  intros H. apply andb_prop in H as [Hc Hr]. simpl negb. simpl andb.
  apply restOfTag_prepend; [exact Hother|].
  rewrite restOfTag_unfold, Hc, Hr. apply orb_true_r.
Qed.

Ltac reduce_if :=
  repeat match goal with
         | |- context C [negb true] => let g := context C [false] in change g
         | |- context C [negb false] => let g := context C [true] in change g
         | |- context C [if true then ?a else _] => let g := context C [a] in change g
         | |- context C [if false then _ else ?b] => let g := context C [b] in change g
         end.

Lemma declareNamespaces_not_svg (source : jsstring) :
  stripPrefix (lit "<svg") source = None -> declareNamespaces source = source.
Proof.
  intros H.
  assert (M : forall attr, matchesSvgWith attr source = false)
    by (intros attr; unfold matchesSvgWith; rewrite H; reflexivity).
  assert (R : forall r, replaceSvg r source = source)
    by (intros r; unfold replaceSvg; rewrite H; reflexivity).
  unfold declareNamespaces. cbv zeta. rewrite M. reduce_if.
  rewrite !R, M. reflexivity.
Qed.

Lemma declareNamespaces_declared (source : jsstring) :
  matchesSvgWith XMLNS source = true -> matchesSvgWith XMLNS_XLINK source = true ->
  declareNamespaces source = source.
Proof.
  intros H1 H2. unfold declareNamespaces. cbv zeta. rewrite H1. reduce_if. rewrite H2. reflexivity.
Qed.

(** X15. The source [downloadImage] builds from a serialized svg declares
    both namespaces in its opening tag; only declarations are inserted,
    right after [<svg], and the rest of the source is kept; a source that
    does not start with [<svg] is left as it is; doing it twice changes
    nothing more. *)
Theorem export_declares_both_namespaces (source : jsstring) :
  (startsWith (lit "<svg") source = true ->
   matchesSvgWith XMLNS (declareNamespaces source) = true /\
   matchesSvgWith XMLNS_XLINK (declareNamespaces source) = true /\
   exists inserted rest,
     source = lit "<svg" ++ rest /\
     declareNamespaces source = lit "<svg" ++ inserted ++ rest)
  /\ (startsWith (lit "<svg") source = false -> declareNamespaces source = source)
  /\ declareNamespaces (declareNamespaces source) = declareNamespaces source.
Proof.
  destruct (stripPrefix (lit "<svg") source) as [rest|] eqn:Hs.
  - apply stripPrefix_Some in Hs. subst source.
    assert (Hstart : startsWith (lit "<svg") (lit "<svg" ++ rest) = true)
      by apply startsWith_app.
    assert (Hmain :
      matchesSvgWith XMLNS (declareNamespaces (lit "<svg" ++ rest)) = true /\
      matchesSvgWith XMLNS_XLINK (declareNamespaces (lit "<svg" ++ rest)) = true /\
      exists inserted,
        declareNamespaces (lit "<svg" ++ rest) = lit "<svg" ++ inserted ++ rest).
    { unfold declareNamespaces. cbv zeta.
      assert (R : forall r x, replaceSvg r (lit "<svg" ++ x) = r ++ x)
        by (intros r x; unfold replaceSvg; rewrite stripPrefix_app; reflexivity).
      destruct (matchesSvgWith XMLNS (lit "<svg" ++ rest)) eqn:H1; reduce_if.
      - destruct (matchesSvgWith XMLNS_XLINK (lit "<svg" ++ rest)) eqn:H2; reduce_if.
        + split; [exact H1|]. split; [exact H2|]. exists []. reflexivity.
        + rewrite R.
          split; [apply matchesSvgWith_kept; [reflexivity | exact H1]|].
          split; [apply matchesSvgWith_inserted|].
          exists (0x20%N :: XMLNS_XLINK). reflexivity.
      - rewrite !R.
        set (source1 := (lit "<svg " ++ XMLNS) ++ rest).
        assert (E1 : source1 = lit "<svg" ++ (0x20%N :: XMLNS ++ rest)) by reflexivity.
        assert (M1 : matchesSvgWith XMLNS source1 = true)
          by apply matchesSvgWith_inserted.
        destruct (matchesSvgWith XMLNS_XLINK source1) eqn:H2; reduce_if.
        + split; [exact M1|]. split; [exact H2|].
          exists (0x20%N :: XMLNS). reflexivity.
        + rewrite E1, R.
          split; [apply matchesSvgWith_kept; [reflexivity | rewrite <- E1; exact M1]|].
          split; [apply matchesSvgWith_inserted|].
          exists ((0x20%N :: XMLNS_XLINK) ++ 0x20%N :: XMLNS).
          rewrite <- !app_assoc. reflexivity. }
    destruct Hmain as (M1 & M2 & inserted & E).
    split; [|split].
    + intros _. split; [exact M1|]. split; [exact M2|]. eauto.
    + rewrite Hstart. discriminate.
    + apply declareNamespaces_declared; assumption.
  - assert (Hstart : startsWith (lit "<svg") source = false).
    { destruct (startsWith (lit "<svg") source) eqn:E; [|reflexivity].
      exfalso. revert Hs E. generalize (lit "<svg"). intros prefix. revert source.
      induction prefix as [|c prefix IH]; intros [|d s]; simpl; try discriminate.
      destruct (c =? d)%N; simpl; [apply IH | discriminate]. }
    rewrite (declareNamespaces_not_svg source Hs).
    split; [rewrite Hstart; discriminate|]. split; [reflexivity|].
    apply declareNamespaces_not_svg. exact Hs.
Qed.

(** *** The properties on the scenarios *)

Lemma draw_names_the_first_missing_node_witness :
  draw true (Sample.props [Sample.e12; Sample.e13]) Blank
    = Throw (lit "node not found: n3")
  /\ draw true Scenario.edgesOnly Blank = Throw (lit "node not found: n1").
Proof.
  split.
  - assert (Hsome : nodes (Sample.props [Sample.e12; Sample.e13]) <> [] \/
                    edges (Sample.props [Sample.e12; Sample.e13]) <> [])
      by (left; discriminate).
    pose proof (draw_names_the_first_missing_node
                  (Sample.props [Sample.e12; Sample.e13]) Blank eq_refl Hsome) as H.
    vm_compute in H. vm_compute. exact H.
  - assert (Hsome : nodes Scenario.edgesOnly <> [] \/ edges Scenario.edgesOnly <> [])
      by (right; discriminate).
    pose proof (draw_names_the_first_missing_node Scenario.edgesOnly Blank eq_refl
                  Hsome) as H.
    vm_compute in H. vm_compute. exact H.
Defined.


Lemma export_declares_both_namespaces_witness :
  matchesSvgWith XMLNS (declareNamespaces Scenario.bareSvg) = true /\
  matchesSvgWith XMLNS_XLINK (declareNamespaces Scenario.bareSvg) = true.
Proof.
  destruct (export_declares_both_namespaces Scenario.bareSvg) as (H & _).
  destruct (H eq_refl) as (H1 & H2 & _). split; assumption.
Defined.
